(** * Fuzzy favorability overlay and its validation

    A shallow embedding of the two scripts of the repository:

    - [modelgeneration.py]: [gaussian_membership] and [fuzzy_gamma_overlay],
      together with the three-layer run at the bottom of the script;
    - the model-validation script: [extract_values], the random background
      sampling and the ROC-AUC computation.

    Numbers.  NumPy floats are modelled as extended reals [npfloat]: a finite
    real, the two infinities, or not-a-number.  Rounding, overflow of finite
    results and the sign of zero are idealised away (a zero divisor counts as
    [+0.0]); everything the scripts rely on beyond that -- division by zero
    giving an infinity or NaN with a warning instead of an exception, NaN
    being unequal to everything, [np.minimum]/[np.maximum] propagating NaN --
    is kept.

    Exceptions.  A Python call either returns a value or raises; calls that
    can raise are modelled in the [outcome] monad. *)

From Stdlib Require Import String Reals Lra Lia ZArith List Bool Permutation.
Import ListNotations.
Open Scope string_scope.
Open Scope list_scope.

(* ================================================================= *)
(** ** Exceptions and outcomes *)

Inductive pyerror : Type :=
| ValueError (msg : string)
| TypeError (msg : string)
| IndexError (msg : string)
| TransformNotInvertibleError (msg : string).

Inductive outcome (A : Type) : Type :=
| Returns (a : A)
| Raises (e : pyerror).

Arguments Returns {A} a.
Arguments Raises {A} e.

Definition bind {A B : Type} (m : outcome A) (k : A -> outcome B) : outcome B :=
  match m with
  | Returns a => k a
  | Raises e => Raises e
  end.

Notation "x <- m ;; k" := (bind m (fun x => k))
  (at level 61, m at next level, right associativity).

Definition is_validation_error {A : Type} (o : outcome A) : Prop :=
  exists msg, o = Raises (ValueError msg).

(* ================================================================= *)
(** ** NumPy floats *)

Inductive npfloat : Type :=
| Fin (r : R)
| PInf
| NInf
| NaN.

Open Scope R_scope.

(** The infinity (or NaN) a nonzero (or zero) finite value turns into when
    it is multiplied by [+inf] or divided by zero. *)
Definition signed_inf (r : R) : npfloat :=
  if Rlt_dec 0 r then PInf else if Rlt_dec r 0 then NInf else NaN.

Definition np_neg (a : npfloat) : npfloat :=
  match a with
  | Fin r => Fin (- r)
  | PInf => NInf
  | NInf => PInf
  | NaN => NaN
  end.

Definition np_add (a b : npfloat) : npfloat :=
  match a, b with
  | NaN, _ | _, NaN => NaN
  | Fin x, Fin y => Fin (x + y)
  | PInf, NInf | NInf, PInf => NaN
  | PInf, _ | _, PInf => PInf
  | NInf, _ | _, NInf => NInf
  end.

Definition np_sub (a b : npfloat) : npfloat := np_add a (np_neg b).

Definition np_mul (a b : npfloat) : npfloat :=
  match a, b with
  | NaN, _ | _, NaN => NaN
  | Fin x, Fin y => Fin (x * y)
  | Fin x, PInf | PInf, Fin x => signed_inf x
  | Fin x, NInf | NInf, Fin x => signed_inf (- x)
  | PInf, PInf | NInf, NInf => PInf
  | PInf, NInf | NInf, PInf => NInf
  end.

(** Array division: a zero divisor gives an infinity or NaN (NumPy only
    warns), it does not raise. *)
Definition np_div (a b : npfloat) : npfloat :=
  match a, b with
  | NaN, _ | _, NaN => NaN
  | Fin x, Fin y => if Req_dec_T y 0 then signed_inf x else Fin (x / y)
  | Fin _, (PInf | NInf) => Fin 0
  | PInf, Fin y => if Rlt_dec y 0 then NInf else PInf
  | NInf, Fin y => if Rlt_dec y 0 then PInf else NInf
  | (PInf | NInf), (PInf | NInf) => NaN
  end.

Definition np_exp (a : npfloat) : npfloat :=
  match a with
  | Fin r => Fin (exp r)
  | PInf => PInf
  | NInf => Fin 0
  | NaN => NaN
  end.

(** [np.minimum] and [np.maximum] propagate NaN. *)
Definition np_minimum (a b : npfloat) : npfloat :=
  match a, b with
  | NaN, _ | _, NaN => NaN
  | NInf, _ | _, NInf => NInf
  | PInf, x | x, PInf => x
  | Fin x, Fin y => Fin (Rmin x y)
  end.

Definition np_maximum (a b : npfloat) : npfloat :=
  match a, b with
  | NaN, _ | _, NaN => NaN
  | PInf, _ | _, PInf => PInf
  | NInf, x | x, NInf => x
  | Fin x, Fin y => Fin (Rmax x y)
  end.

Definition np_isnan (a : npfloat) : bool :=
  match a with
  | NaN => true
  | _ => false
  end.

(** [a != b]: NaN differs from everything, itself included. *)
Definition np_ne (a b : npfloat) : bool :=
  match a, b with
  | NaN, _ | _, NaN => true
  | Fin x, Fin y => if Req_dec_T x y then false else true
  | PInf, PInf | NInf, NInf => false
  | _, _ => true
  end.

(* ================================================================= *)
(** ** Arrays *)

(** A 2-D array is the list of its rows. *)
Definition grid : Type := list (list npfloat).

Definition shape (g : grid) : list nat := map (@List.length npfloat) g.

Definition same_shape (g h : grid) : bool :=
  if list_eq_dec Nat.eq_dec (shape g) (shape h) then true else false.

Fixpoint zip_with {A : Type} (f : A -> A -> A) (l k : list A) : list A :=
  match l, k with
  | x :: l', y :: k' => f x y :: zip_with f l' k'
  | _, _ => []
  end.

Definition grid_map (f : npfloat -> npfloat) (g : grid) : grid :=
  map (map f) g.

Definition grid_zip (f : npfloat -> npfloat -> npfloat) (g h : grid) : grid :=
  zip_with (zip_with f) g h.

(** [ufunc.reduce] over a Python list of arrays: the list is stacked into
    one array (which fails when it is empty or ragged) and reduced along
    its first axis. *)
Definition np_reduce (f : npfloat -> npfloat -> npfloat) (arrays : list grid)
  : outcome grid :=
  match arrays with
  | [] =>
      Raises (ValueError
        "zero-size array to reduction operation which has no identity")
  | first :: rest =>
      if forallb (same_shape first) rest
      then Returns (fold_left (grid_zip f) rest first)
      else Raises (ValueError "inhomogeneous shape")
  end.

(* ================================================================= *)
(** ** modelgeneration.py *)

(** The expression of [gaussian_membership] at one cell:
    [np.exp(-((array - c) * 2) / (2 * sigma * 2))]. *)
Definition membership_value (v c sigma : npfloat) : npfloat :=
  np_exp (np_div (np_neg (np_mul (np_sub v c) (Fin 2)))
                 (np_mul (np_mul (Fin 2) sigma) (Fin 2))).

Definition gaussian_membership (array : grid) (c sigma : npfloat)
  : outcome grid :=
  Returns (grid_map (fun v => membership_value v c sigma) array).

(** The expression of [fuzzy_gamma_overlay] at one cell:
    [(fuzzy_and * (1 - gamma_val)) * (fuzzy_or * gamma_val)]. *)
Definition overlay_value (fuzzy_and fuzzy_or gamma_val : npfloat) : npfloat :=
  np_mul (np_mul fuzzy_and (np_sub (Fin 1) gamma_val))
         (np_mul fuzzy_or gamma_val).

Definition fuzzy_gamma_overlay (fuzzy_arrays : list grid) (gamma_val : npfloat)
  : outcome grid :=
  fuzzy_and <- np_reduce np_minimum fuzzy_arrays ;;
  fuzzy_or <- np_reduce np_maximum fuzzy_arrays ;;
  Returns (grid_zip (fun a o => overlay_value a o gamma_val) fuzzy_and fuzzy_or).

(** *** The run at the bottom of the script *)

Definition centers : list npfloat := [Fin 50; Fin (3 / 10); Fin 300].
Definition sigmas : list npfloat := [Fin 15; Fin (1 / 10); Fin 60].
Definition gamma_value : npfloat := Fin (85 / 100).

(** Largest finite [float32], the value [np.nan_to_num] puts in the place
    of an infinity of the [float32] array [read_raster] returns. *)
Definition float32_max : R := (2 - / 2 ^ 23) * 2 ^ 127.

(** [np.nan_to_num(arr, nan=0)]. *)
Definition np_nan_to_num (arr : grid) : grid :=
  grid_map (fun v =>
              match v with
              | NaN => Fin 0
              | PInf => Fin float32_max
              | NInf => Fin (- float32_max)
              | Fin r => Fin r
              end) arr.

(** [l[i]] for a Python list and a non-negative index. *)
Definition list_get {A : Type} (l : list A) (i : nat) : outcome A :=
  match nth_error l i with
  | Some x => Returns x
  | None => Raises (IndexError "list index out of range")
  end.

(** The loop over [enumerate(raster_files)], on the arrays [read_raster]
    gives for the files. *)
Fixpoint membership_loop (i : nat) (rasters : list grid)
  (fuzzy_layers : list grid) : outcome (list grid) :=
  match rasters with
  | [] => Returns fuzzy_layers
  | arr :: rest =>
      let arr := np_nan_to_num arr in
      c <- list_get centers i ;;
      sigma <- list_get sigmas i ;;
      fuzzy <- gaussian_membership arr c sigma ;;
      membership_loop (S i) rest (fuzzy_layers ++ [fuzzy])
  end.

(** The [PROCESSING] part of the script: the fuzzy layers and the overlay
    that is saved. *)
Definition processing (rasters : list grid) : outcome (list grid * grid) :=
  fuzzy_layers <- membership_loop 0 rasters [] ;;
  overlay <- fuzzy_gamma_overlay fuzzy_layers gamma_value ;;
  Returns (fuzzy_layers, overlay).

(* ================================================================= *)
(** ** The validation script *)

(** *** The affine transform of the raster *)

Module Affine.

(** [x = a * col + b * row + c], [y = d * col + e * row + f]. *)
Record t : Type := mk { a : R; b : R; c : R; d : R; e : R; f : R }.

Definition determinant (s : t) : R := a s * e s - b s * d s.

(** [~transform]. *)
Definition invert (s : t) : outcome t :=
  if Req_dec_T (determinant s) 0
  then Raises (TransformNotInvertibleError
                 "Cannot invert degenerate transform")
  else
    let idet := 1 / determinant s in
    let ra := e s * idet in
    let rb := - b s * idet in
    let rd := - d s * idet in
    let re := a s * idet in
    Returns (mk ra rb (- c s * ra - f s * rb) rd re (- c s * rd - f s * re)).

(** [transform * (vx, vy)]. *)
Definition apply (s : t) (v : R * R) : R * R :=
  let (vx, vy) := v in
  (vx * a s + vy * b s + c s, vx * d s + vy * e s + f s).

End Affine.

(** [int(x)] for a finite float: truncation towards zero. *)
Definition py_int (x : R) : Z :=
  if Rle_dec 0 x then Int_part x else (- Int_part (- x))%Z.

(** *** Reading cells *)

(** One axis of a NumPy index: negative indices count from the end. *)
Definition np_axis_index (n : nat) (i : Z) : outcome nat :=
  if ((0 <=? i) && (i <? Z.of_nat n))%Z then Returns (Z.to_nat i)
  else if ((- Z.of_nat n <=? i) && (i <? 0))%Z
       then Returns (Z.to_nat (i + Z.of_nat n))
       else Raises (IndexError "index is out of bounds for axis").

(** [raster[row, col]]. *)
Definition raster_get (raster : grid) (row col : Z) : outcome npfloat :=
  r <- np_axis_index (List.length raster) row ;;
  let cells := nth r raster [] in
  k <- np_axis_index (List.length cells) col ;;
  Returns (nth k cells NaN).

(** [np.isnan(nodata)]; [src.nodata] is [None] when the file declares no
    sentinel, and [np.isnan(None)] is a type error. *)
Definition isnan_nodata (nodata : option npfloat) : outcome bool :=
  match nodata with
  | Some nd => Returns (np_isnan nd)
  | None => Raises (TypeError "ufunc isnan not supported for the input types")
  end.

(** [val != nodata]. *)
Definition ne_nodata (val : npfloat) (nodata : option npfloat) : bool :=
  match nodata with
  | Some nd => np_ne val nd
  | None => true
  end.

(** The test that guards [values.append(val)]. *)
Definition keep_value (nodata : option npfloat) (val : npfloat) : outcome bool :=
  nd_nan <- isnan_nodata nodata ;;
  Returns ((nd_nan && negb (np_isnan val))
           || (negb nd_nan && ne_nodata val nodata)).

(** *** Value extraction *)

Section Extraction.

Variable raster : grid.
Variable transform : Affine.t.
Variables height width : Z.
(** [nodata] is a global of the script. *)
Variable nodata : option npfloat.

(** The body of [extract_values], one point after the other.  [values]
    is the list of the source; [reads] is a ghost log of the indices
    [raster[row, col]] was evaluated at. *)
Fixpoint extract_loop (geometry : list (R * R)) (values : list npfloat)
  (reads : list (Z * Z)) : outcome (list npfloat * list (Z * Z)) :=
  match geometry with
  | [] => Returns (values, reads)
  | point :: rest =>
      inv <- Affine.invert transform ;;
      let (col, row) := Affine.apply inv point in
      let col := py_int col in
      let row := py_int row in
      if ((0 <=? row) && (row <? height) && ((0 <=? col) && (col <? width)))%Z
      then
        val <- raster_get raster row col ;;
        keep <- keep_value nodata val ;;
        if keep
        then extract_loop rest (values ++ [val]) (reads ++ [(row, col)])
        else extract_loop rest values (reads ++ [(row, col)])
      else extract_loop rest values reads
  end.

Definition extract_trace (gdf : list (R * R))
  : outcome (list npfloat * list (Z * Z)) :=
  extract_loop gdf [] [].

Definition extract_values (gdf : list (R * R)) : outcome (list npfloat) :=
  r <- extract_trace gdf ;; Returns (fst r).

End Extraction.

(** *** Random background sampling *)

(** The valid pixel mask: [~np.isnan(raster_data)] when the sentinel is
    NaN, [raster_data != nodata] otherwise. *)
Definition valid_mask (raster_data : grid) (nodata : option npfloat)
  : outcome (list (list bool)) :=
  nd_nan <- isnan_nodata nodata ;;
  if nd_nan
  then Returns (map (map (fun v => negb (np_isnan v))) raster_data)
  else Returns (map (map (fun v => ne_nodata v nodata)) raster_data).

(** The true cells of one row of a mask, from column [k] on. *)
Fixpoint where_row (r k : nat) (cells : list bool) : list (nat * nat) :=
  match cells with
  | [] => []
  | m :: rest => (if m then [(r, k)] else []) ++ where_row r (S k) rest
  end.

(** The true cells of a mask in row-major order, from row [r] on. *)
Fixpoint where_from (r : nat) (mask : list (list bool)) : list (nat * nat) :=
  match mask with
  | [] => []
  | cells :: rest => where_row r 0 cells ++ where_from (S r) rest
  end.

(** [np.where(mask)]: the row indices and the column indices of the true
    cells. *)
Definition np_where (mask : list (list bool)) : list nat * list nat :=
  let cells := where_from 0 mask in (map fst cells, map snd cells).

(** [a[idx]] for an index array. *)
Fixpoint take {A : Type} (a : list A) (idx : list nat) : outcome (list A) :=
  match idx with
  | [] => Returns []
  | i :: rest =>
      x <- list_get a i ;;
      xs <- take a rest ;;
      Returns (x :: xs)
  end.

(** [raster_data[rs, cs]] for two index arrays of one length. *)
Fixpoint take2 (raster_data : grid) (rs cs : list nat) : outcome (list npfloat) :=
  match rs, cs with
  | [], [] => Returns []
  | r :: rs', k :: cs' =>
      v <- raster_get raster_data (Z.of_nat r) (Z.of_nat k) ;;
      vs <- take2 raster_data rs' cs' ;;
      Returns (v :: vs)
  | _, _ => Raises (IndexError "shape mismatch: indexing arrays")
  end.

(** What the sampling block leaves behind: the cells drawn,
    [rows[rand_idx]] and [cols[rand_idx]], and their values. *)
Record sampling : Type := mk_sampling {
  sample_rows : list nat;
  sample_cols : list nat;
  random_values : list npfloat
}.

Definition sample_cells (s : sampling) : list (nat * nat) :=
  combine (sample_rows s) (sample_cols s).

Section Sampling.

(** The random source: [permutation n] is the shuffle of [range(n)] the
    generator produces at this call. *)
Variable permutation : nat -> list nat.

(** [np.random.choice(n, size=size, replace=False)]: the first [size]
    entries of a shuffle of [range(n)]. *)
Definition np_random_choice (n size : nat) : outcome (list nat) :=
  if (size <=? n)%nat
  then Returns (firstn size (permutation n))
  else Raises (ValueError
    "Cannot take a larger sample than population when replace is False").

(** The [RANDOM SAMPLING] block of the script. *)
Definition random_sampling (raster_data : grid) (nodata : option npfloat)
  (occurrence_values : list npfloat) : outcome sampling :=
  mask <- valid_mask raster_data nodata ;;
  let (rows, cols) := np_where mask in
  let sample_size := Nat.min (List.length rows) (List.length occurrence_values) in
  if (sample_size =? 0)%nat
  then Raises (ValueError "No valid pixels for random sampling")
  else
    rand_idx <- np_random_choice (List.length rows) sample_size ;;
    rs <- take rows rand_idx ;;
    cs <- take cols rand_idx ;;
    vals <- take2 raster_data rs cs ;;
    Returns (mk_sampling rs cs vals).

End Sampling.

(** *** The discrimination score *)

Definition np_lt (a b : npfloat) : bool :=
  match a, b with
  | NaN, _ | _, NaN => false
  | Fin x, Fin y => if Rlt_dec x y then true else false
  | _, NInf => false
  | NInf, _ => true
  | PInf, _ => false
  | _, PInf => true
  end.

Definition np_ones_like (a : list npfloat) : list npfloat := map (fun _ => Fin 1) a.
Definition np_zeros_like (a : list npfloat) : list npfloat := map (fun _ => Fin 0) a.

(** The scores that carry a given label. *)
Fixpoint scores_of (label : npfloat) (y_true y_score : list npfloat)
  : list npfloat :=
  match y_true, y_score with
  | l :: y_true', s :: y_score' =>
      if np_ne l label then scores_of label y_true' y_score'
      else s :: scores_of label y_true' y_score'
  | _, _ => []
  end.

(** One foreground/background pair: 1 when the foreground score is the
    larger one, one half on a tie, 0 otherwise. *)
Definition pair_score (fg bg : npfloat) : R :=
  if np_lt bg fg then 1 else if np_ne fg bg then 0 else 1 / 2.

Definition sum_R (l : list R) : R := fold_right Rplus 0 l.

Definition pairs_total (pos neg : list npfloat) : R :=
  sum_R (map (fun p => sum_R (map (pair_score p) neg)) pos).

(** Modelled from the spec: [roc_auc_score] is imported from scikit-learn
    and its code is not part of the repository.  Section 4.4 defines the
    score as the probability that a uniformly random foreground sample's
    score exceeds a uniformly random background sample's score, ties counted
    as one half, undefined (an error) unless both classes are present. *)
Definition roc_auc_score (y_true y_score : list npfloat) : outcome npfloat :=
  let pos := scores_of (Fin 1) y_true y_score in
  let neg := scores_of (Fin 0) y_true y_score in
  match pos, neg with
  | _ :: _, _ :: _ =>
      Returns (Fin (pairs_total pos neg
                    / (INR (List.length pos) * INR (List.length neg))))
  | _, _ => Raises (ValueError "Only one class present in y_true")
  end.

(** The [STATISTICAL ANALYSIS] block of the script. *)
Definition auc_score (occurrence_values random_values : list npfloat)
  : outcome npfloat :=
  let y_true := np_ones_like occurrence_values ++ np_zeros_like random_values in
  let y_score := occurrence_values ++ random_values in
  roc_auc_score y_true y_score.

(* ================================================================= *)
(** ** The vocabulary of the specification *)

(** The Gaussian form of section 4.1:
    [exp(-(v - center)^2 / (2 * spread^2))]. *)
Definition gaussian_form (v center spread : R) : R :=
  exp (- (v - center) ^ 2 / (2 * spread ^ 2)).

(** [x] lies between the AND value and the OR value of a cell. *)
Definition between_and_or (fuzzy_and fuzzy_or x : R) : Prop :=
  Rmin fuzzy_and fuzzy_or <= x <= Rmax fuzzy_and fuzzy_or.

(** A grid of [h] rows and [w] columns holding [v] everywhere. *)
Definition const_grid (h w : nat) (v : npfloat) : grid := repeat (repeat v w) h.

(** The cell of a membership grid computed with spread 0, for a finite
    value [v] and a finite centre [c]. *)
Definition zero_spread_cell (v c : R) : npfloat :=
  if Rlt_dec v c then PInf else if Rlt_dec c v then Fin 0 else NaN.

(** A cell value counts as the nodata sentinel: by kind when the sentinel
    is NaN, by numeric equality otherwise; never when there is no
    sentinel. *)
Definition is_nodata (nodata : option npfloat) (v : npfloat) : bool :=
  match nodata with
  | None => false
  | Some nd => if np_isnan nd then np_isnan v else negb (np_ne v nd)
  end.

(** An index pair (row, column) inside [[0, H) x [0, W)]. *)
Definition in_bounds (height width : Z) (rc : Z * Z) : Prop :=
  (0 <= fst rc < height)%Z /\ (0 <= snd rc < width)%Z.


(** The coordinate mapping of section 4.3: the (row, column) a point is
    mapped to, as the loop of [extract_values] computes it. *)
Definition world_to_index (transform : Affine.t) (point : R * R)
  : outcome (Z * Z) :=
  inv <- Affine.invert transform ;;
  let (col, row) := Affine.apply inv point in
  Returns (py_int row, py_int col).

(** The valid (non-nodata) cells of a grid, in row-major order. *)
Definition valid_cells (raster : grid) (nodata : option npfloat)
  : list (nat * nat) :=
  where_from 0 (map (map (fun v => negb (is_nodata nodata v))) raster).

(** Pixel and world coordinates coincide under the identity transform. *)
Definition identity_transform : Affine.t := Affine.mk 1 0 0 0 1 0.


(** The value a grid holds at a cell. *)
Definition cell_value (raster : grid) (rc : nat * nat) : npfloat :=
  nth (snd rc) (nth (fst rc) raster []) NaN.

(** A random source that leaves [range(n)] in order. *)
Definition identity_shuffle (n : nat) : list nat := seq 0 n.

(** *** Vocabulary of the further properties *)

(** Every cell of a grid satisfies [P]. *)
Definition grid_all (P : npfloat -> Prop) (g : grid) : Prop :=
  Forall (Forall P) g.

(** A finite value between [lo] and [hi]. *)
Definition fin_between (lo hi : R) (a : npfloat) : Prop :=
  exists x, a = Fin x /\ lo <= x <= hi.

(** A cell that is not NaN. *)
Definition not_nan (a : npfloat) : Prop := np_isnan a = false.


(* ================================================================= *)
(** ** Evaluating the model *)

Ltac decide_R :=
  repeat match goal with
  | |- context [Req_dec_T ?x ?y] => destruct (Req_dec_T x y); try lra
  | |- context [Rlt_dec ?x ?y] => destruct (Rlt_dec x y); try lra
  | |- context [Rle_dec ?x ?y] => destruct (Rle_dec x y); try lra
  end.

Ltac np_unfold :=
  unfold gaussian_membership, fuzzy_gamma_overlay, np_reduce, const_grid;
  simpl;
  unfold grid_zip, grid_map, overlay_value, membership_value, np_sub;
  simpl.

(** The corners of the number model the scripts rely on. *)
Lemma np_div_zero_divisor :
  np_div (Fin 1) (Fin 0) = PInf
  /\ np_div (Fin (- 1)) (Fin 0) = NInf
  /\ np_div (Fin 0) (Fin 0) = NaN.
Proof. unfold np_div, signed_inf. repeat split; decide_R; reflexivity. Qed.

Lemma np_ne_nan (a : npfloat) : np_ne NaN a = true /\ np_ne a NaN = true.
Proof. now destruct a. Qed.

Lemma np_minimum_nan (a : npfloat) :
  np_minimum NaN a = NaN /\ np_minimum a NaN = NaN.
Proof. now destruct a. Qed.

Lemma np_maximum_nan (a : npfloat) :
  np_maximum NaN a = NaN /\ np_maximum a NaN = NaN.
Proof. now destruct a. Qed.

(* ================================================================= *)
(** ** The membership engine *)

Lemma exp_gt_1 (x : R) : 0 < x -> 1 < exp x.
Proof. intros H. apply exp_increasing in H. now rewrite exp_0 in H. Qed.

Lemma exp_lt_1 (x : R) : x < 0 -> exp x < 1.
Proof. intros H. apply exp_increasing in H. now rewrite exp_0 in H. Qed.

Lemma membership_value_fin (v c s : R) :
  s <> 0 ->
  membership_value (Fin v) (Fin c) (Fin s)
  = Fin (exp (- ((v - c) * 2) / (2 * s * 2))).
Proof.
  intros Hs. np_unfold.
  destruct (Req_dec_T (2 * s * 2) 0) as [E | _]; [lra | reflexivity].
Qed.

(** On finite input the exponent is linear in [v - c]: the function is
    [exp(-(v - c) / (2 * sigma))]. *)
Lemma membership_value_linear (v c s : R) :
  s <> 0 ->
  membership_value (Fin v) (Fin c) (Fin s) = Fin (exp (- (v - c) / (2 * s))).
Proof.
  intros Hs. rewrite membership_value_fin by assumption.
  do 2 f_equal. field. assumption.
Qed.

(** At the centre the membership is 1, whatever the nonzero spread. *)
Lemma membership_at_center (c s : R) :
  s <> 0 -> membership_value (Fin c) (Fin c) (Fin s) = Fin 1.
Proof.
  intros Hs. rewrite membership_value_linear by assumption.
  replace (- (c - c) / (2 * s)) with 0 by (field; assumption).
  now rewrite exp_0.
Qed.

(** Below the centre the membership exceeds 1 (for a positive spread). *)
Lemma membership_above_one (v c s : R) :
  0 < s -> v < c ->
  exists m, membership_value (Fin v) (Fin c) (Fin s) = Fin m /\ 1 < m.
Proof.
  intros Hs Hv. eexists. split.
  - apply membership_value_linear. lra.
  - apply exp_gt_1.
    apply Rmult_lt_0_compat; [lra | apply Rinv_0_lt_compat; lra].
Qed.

Lemma exp_half_gt_1 : 1 < exp (1 / 2).
Proof. apply exp_gt_1. lra. Qed.

Lemma exp_neg_half_lt_1 : exp (- (1 / 2)) < 1.
Proof. apply exp_lt_1. lra. Qed.

(** C3 (the code departs from the claim).  The claim: the membership
    operation computes the Gaussian form [exp(-(v - c)^2 / (2 * s^2))], with
    values in (0, 1].  At [v = 0], [c = 1], [sigma = 1] the code returns
    [exp(1/2)], which exceeds 1, where the Gaussian form is [exp(-1/2)]. *)
Theorem membership_is_not_gaussian :
  gaussian_membership [[Fin 0]] (Fin 1) (Fin 1)
  = Returns [[Fin (exp (1 / 2))]]
  /\ 1 < exp (1 / 2)
  /\ gaussian_form 0 1 1 = exp (- (1 / 2))
  /\ exp (1 / 2) <> gaussian_form 0 1 1.
Proof.
  assert (G : gaussian_form 0 1 1 = exp (- (1 / 2))).
  { unfold gaussian_form. f_equal. field. }
  repeat split.
  - unfold gaussian_membership, grid_map. simpl.
    rewrite membership_value_linear by lra.
    replace (- (0 - 1) / (2 * 1)) with (1 / 2) by lra. reflexivity.
  - exact exp_half_gt_1.
  - exact G.
  - rewrite G. pose proof exp_half_gt_1. pose proof exp_neg_half_lt_1. lra.
Qed.

(** C5 (the code departs from the claim).  The claim: membership is 1 at
    the centre and symmetric about it.  The first half holds
    ([membership_at_center]); the second fails: with centre 0 and spread 1
    the code gives [exp(1/2)] at [0 - 1] and [exp(-1/2)] at [0 + 1]. *)
Theorem membership_is_not_symmetric :
  membership_value (Fin (0 - 1)) (Fin 0) (Fin 1) = Fin (exp (1 / 2))
  /\ membership_value (Fin (0 + 1)) (Fin 0) (Fin 1) = Fin (exp (- (1 / 2)))
  /\ membership_value (Fin (0 - 1)) (Fin 0) (Fin 1)
     <> membership_value (Fin (0 + 1)) (Fin 0) (Fin 1).
Proof.
  assert (L : membership_value (Fin (0 - 1)) (Fin 0) (Fin 1)
              = Fin (exp (1 / 2))).
  { rewrite membership_value_linear by lra. do 2 f_equal. lra. }
  assert (U : membership_value (Fin (0 + 1)) (Fin 0) (Fin 1)
              = Fin (exp (- (1 / 2)))).
  { rewrite membership_value_linear by lra. do 2 f_equal. lra. }
  repeat split; try assumption.
  rewrite L, U. intros E. injection E as E.
  pose proof exp_half_gt_1. pose proof exp_neg_half_lt_1. lra.
Qed.

(* ================================================================= *)
(** ** The overlay engine *)

Lemma overlay_value_fin (a o g : R) :
  overlay_value (Fin a) (Fin o) (Fin g) = Fin (a * (1 - g) * (o * g)).
Proof. reflexivity. Qed.

(** For memberships in (0, 1] and gamma in [0, 1] the value the code
    computes is strictly below the AND value. *)
Lemma overlay_value_below_and (a o g : R) :
  0 < a -> a <= o -> o <= 1 -> 0 <= g <= 1 ->
  exists x, overlay_value (Fin a) (Fin o) (Fin g) = Fin x /\ x < a.
Proof.
  intros Ha Hao Ho Hg. rewrite overlay_value_fin. eexists.
  split; [reflexivity |].
  assert (Hq : g * (1 - g) <= 1 / 4).
  { pose proof (Rle_0_sqr (g - 1 / 2)) as Hs. unfold Rsqr in Hs. lra. }
  assert (Hp : 0 <= g * (1 - g)).
  { apply Rmult_le_pos; lra. }
  replace (a * (1 - g) * (o * g)) with (a * (o * (g * (1 - g)))) by ring.
  assert (Hb : o * (g * (1 - g)) <= 1 * (1 / 4)).
  { apply Rmult_le_compat; lra. }
  assert (Hc : a * (o * (g * (1 - g))) <= a * (1 * (1 / 4))).
  { apply Rmult_le_compat_l; lra. }
  lra.
Qed.

(** C1 (the code departs from the claim).  The claim: every cell of the
    overlay lies between the AND value and the OR value.  For the layers
    [[0.4]] and [[0.8]] and gamma 0.5 the AND grid is [[0.4]], the OR grid is
    [[0.8]] and the code returns [[0.08]]. *)
Theorem overlay_leaves_and_or_interval :
  let layers := [[[Fin (4 / 10)]]; [[Fin (8 / 10)]]] in
  np_reduce np_minimum layers = Returns [[Fin (4 / 10)]]
  /\ np_reduce np_maximum layers = Returns [[Fin (8 / 10)]]
  /\ fuzzy_gamma_overlay layers (Fin (1 / 2)) = Returns [[Fin (8 / 100)]]
  /\ ~ between_and_or (4 / 10) (8 / 10) (8 / 100).
Proof.
  cbv zeta. repeat split.
  - np_unfold. unfold Rmin. decide_R. reflexivity.
  - np_unfold. unfold Rmax. decide_R. reflexivity.
  - np_unfold. unfold Rmin, Rmax. decide_R. do 4 f_equal. lra.
  - unfold between_and_or, Rmin, Rmax. decide_R.
Qed.

(** C2 (the code departs from the claim).  The claim: gamma 0 gives the AND
    grid and gamma 1 the OR grid.  For the layers [[0.4]] and [[0.8]] the
    code returns [[0]] at both ends. *)
Theorem overlay_vanishes_at_gamma_ends :
  let layers := [[[Fin (4 / 10)]]; [[Fin (8 / 10)]]] in
  np_reduce np_minimum layers = Returns [[Fin (4 / 10)]]
  /\ np_reduce np_maximum layers = Returns [[Fin (8 / 10)]]
  /\ fuzzy_gamma_overlay layers (Fin 0) = Returns [[Fin 0]]
  /\ fuzzy_gamma_overlay layers (Fin 1) = Returns [[Fin 0]].
Proof.
  cbv zeta. repeat split.
  - np_unfold. unfold Rmin. decide_R. reflexivity.
  - np_unfold. unfold Rmax. decide_R. reflexivity.
  - np_unfold. unfold Rmin, Rmax. decide_R. do 4 f_equal. lra.
  - np_unfold. unfold Rmin, Rmax. decide_R. do 4 f_equal. lra.
Qed.

(* ================================================================= *)
(** ** The run of the script on constant layers *)

Lemma np_nan_to_num_const (h w : nat) (v : R) :
  np_nan_to_num (const_grid h w (Fin v)) = const_grid h w (Fin v).
Proof.
  unfold np_nan_to_num, grid_map, const_grid. now rewrite !map_repeat.
Qed.

Lemma gaussian_membership_const (h w : nat) (c s : R) :
  s <> 0 ->
  gaussian_membership (const_grid h w (Fin c)) (Fin c) (Fin s)
  = Returns (const_grid h w (Fin 1)).
Proof.
  intros Hs. unfold gaussian_membership, grid_map, const_grid.
  rewrite !map_repeat. now rewrite membership_at_center.
Qed.

(** C4 (the code departs from the claim).  The claim: on three constant 3x3
    grids 50, 0.3 and 300 with the parameters of the script every membership
    layer is constantly 1 and the overlay is constantly 1.  The layers are
    constantly 1; the overlay the code returns is constantly 0.1275. *)
Theorem constant_layers_run :
  processing [const_grid 3 3 (Fin 50); const_grid 3 3 (Fin (3 / 10));
              const_grid 3 3 (Fin 300)]
  = Returns ([const_grid 3 3 (Fin 1); const_grid 3 3 (Fin 1);
              const_grid 3 3 (Fin 1)],
             const_grid 3 3 (Fin (1275 / 10000)))
  /\ 1275 / 10000 <> 1.
Proof.
  split; [| lra].
  unfold processing. cbn [membership_loop].
  rewrite !np_nan_to_num_const.
  unfold centers, sigmas, list_get. cbn [nth_error bind].
  rewrite !gaussian_membership_const by lra.
  cbn [bind app].
  unfold gamma_value. np_unfold. unfold Rmin, Rmax. decide_R.
  repeat (f_equal; try lra).
Qed.

(* ================================================================= *)
(** ** Parameters are not validated *)

Lemma membership_zero_spread (v c : R) :
  membership_value (Fin v) (Fin c) (Fin 0) = zero_spread_cell v c.
Proof.
  np_unfold. unfold zero_spread_cell, signed_inf.
  destruct (Req_dec_T (2 * 0 * 2) 0) as [_ | N]; [| lra].
  decide_R; reflexivity.
Qed.

Lemma np_reduce_returns (op : npfloat -> npfloat -> npfloat)
  (first : grid) (rest : list grid) :
  forallb (same_shape first) rest = true ->
  np_reduce op (first :: rest) = Returns (fold_left (grid_zip op) rest first).
Proof. intros H. simpl. now rewrite H. Qed.

Lemma validation_error_not_returns {A : Type} (a : A) :
  ~ is_validation_error (Returns a).
Proof. intros [msg E]. discriminate E. Qed.

(** C6, refuted as stated.  With spread 0 the membership operation returns
    a grid holding [+inf], NaN and 0; with gamma 2 the overlay operation
    returns a grid holding -2.  Neither raises. *)
Lemma parameters_not_validated_example :
  gaussian_membership [[Fin 0; Fin 1; Fin 2]] (Fin 1) (Fin 0)
  = Returns [[PInf; NaN; Fin 0]]
  /\ ~ is_validation_error
         (gaussian_membership [[Fin 0; Fin 1; Fin 2]] (Fin 1) (Fin 0))
  /\ fuzzy_gamma_overlay [[[Fin 1]]] (Fin 2) = Returns [[Fin (- 2)]]
  /\ ~ is_validation_error (fuzzy_gamma_overlay [[[Fin 1]]] (Fin 2)).
Proof.
  assert (M : gaussian_membership [[Fin 0; Fin 1; Fin 2]] (Fin 1) (Fin 0)
              = Returns [[PInf; NaN; Fin 0]]).
  { unfold gaussian_membership, grid_map. simpl.
    rewrite !membership_zero_spread. unfold zero_spread_cell.
    decide_R; reflexivity. }
  assert (O : fuzzy_gamma_overlay [[[Fin 1]]] (Fin 2) = Returns [[Fin (- 2)]]).
  { np_unfold. do 4 f_equal. lra. }
  repeat split; try assumption.
  - rewrite M. apply validation_error_not_returns.
  - rewrite O. apply validation_error_not_returns.
Qed.

(* ================================================================= *)
(** ** Value extraction *)

Lemma keep_value_true (nodata : option npfloat) (val : npfloat) :
  keep_value nodata val = Returns true ->
  exists nd, nodata = Some nd /\ is_nodata nodata val = false.
Proof.
  unfold keep_value, is_nodata.
  destruct nodata as [nd |]; simpl; [| discriminate].
  intros H. injection H as H. exists nd. split; [reflexivity |].
  destruct (np_isnan nd); simpl in H.
  - rewrite orb_false_r in H. now apply negb_true_iff.
  - now rewrite H.
Qed.


Section ExtractionFacts.

Variable raster : grid.
Variable transform : Affine.t.
Variables height width : Z.
Variable nodata : option npfloat.

Lemma in_bounds_test (row col : Z) :
  ((0 <=? row) && (row <? height) && ((0 <=? col) && (col <? width)))%Z = true
  <-> in_bounds height width (row, col).
Proof.
  unfold in_bounds. simpl.
  rewrite !andb_true_iff, !Z.leb_le, !Z.ltb_lt. tauto.
Qed.

(** Every value the loop appends was read at an in-bounds index and passed
    the nodata test; every index the loop reads is in bounds. *)
Lemma extract_loop_invariant (P : npfloat -> Prop) (Q : Z * Z -> Prop) :
  (forall row col val,
      in_bounds height width (row, col) ->
      raster_get raster row col = Returns val ->
      keep_value nodata val = Returns true ->
      P val) ->
  (forall rc, in_bounds height width rc -> Q rc) ->
  forall geometry values reads vs rs,
    extract_loop raster transform height width nodata geometry values reads
    = Returns (vs, rs) ->
    Forall P values -> Forall Q reads ->
    Forall P vs /\ Forall Q rs.
Proof.
  intros HP HQ.
  induction geometry as [| point rest IH]; intros values reads vs rs E Hv Hr.
  - simpl in E. injection E as <- <-. now split.
  - simpl in E.
    destruct (Affine.invert transform) as [inv |]; simpl in E; [| discriminate].
    destruct (Affine.apply inv point) as [col row].
    destruct (_ && _)%bool eqn:B in E.
    + apply in_bounds_test in B.
      destruct (raster_get raster (py_int row) (py_int col)) as [val |] eqn:G;
        simpl in E; [| discriminate].
      destruct (keep_value nodata val) as [[|] |] eqn:K;
        simpl in E; [| | discriminate].
      * apply IH in E; [exact E | |].
        -- apply Forall_app. split; [assumption |].
           constructor; [| constructor]. eapply HP; eassumption.
        -- apply Forall_app. split; [assumption |].
           constructor; [| constructor]. now apply HQ.
      * apply IH in E; [exact E | assumption |].
        apply Forall_app. split; [assumption |].
        constructor; [| constructor]. now apply HQ.
    + apply IH in E; assumption.
Qed.

End ExtractionFacts.

(** C7.  Whenever the extraction returns, no returned value is the nodata
    sentinel (a NaN sentinel being recognised by [isnan], so that no NaN is
    returned under it), and every index at which the raster was read lies in
    [[0, H) x [0, W)]. *)
Theorem extract_skips_nodata_within_bounds
  (raster : grid) (transform : Affine.t) (height width : Z)
  (nodata : option npfloat) (gdf : list (R * R))
  (values : list npfloat) (reads : list (Z * Z)) :
  extract_trace raster transform height width nodata gdf
  = Returns (values, reads) ->
  extract_values raster transform height width nodata gdf = Returns values
  /\ Forall (fun v => is_nodata nodata v = false) values
  /\ Forall (in_bounds height width) reads
  /\ (forall nd, nodata = Some nd -> np_isnan nd = true ->
                 Forall (fun v => np_isnan v = false) values).
Proof.
  intros E.
  assert (I : Forall (fun v => is_nodata nodata v = false) values
              /\ Forall (in_bounds height width) reads).
  { eapply extract_loop_invariant; [| | exact E | constructor | constructor].
    - intros row col val _ _ K.
      apply keep_value_true in K. now destruct K as (nd & _ & K).
    - trivial. }
  destruct I as [Iv Ir].
  split; [| split; [exact Iv | split; [exact Ir |]]].
  - unfold extract_values. now rewrite E.
  - intros nd -> Hnd. eapply Forall_impl; [| exact Iv].
    intros v Hv. unfold is_nodata in Hv. now rewrite Hnd in Hv.
Qed.

(** *** Truncation and the identity transform *)

Lemma Int_part_IZR (n : Z) : Int_part (IZR n) = n.
Proof. symmetry. apply Int_part_spec. lra. Qed.

Lemma py_int_IZR (n : Z) : py_int (IZR n) = n.
Proof.
  unfold py_int. destruct (Rle_dec 0 (IZR n)) as [_ | _].
  - apply Int_part_IZR.
  - rewrite <- opp_IZR, Int_part_IZR. apply Z.opp_involutive.
Qed.

Lemma world_to_index_identity (x y : Z) :
  world_to_index identity_transform (IZR x, IZR y) = Returns (y, x).
Proof.
  unfold world_to_index, identity_transform, Affine.invert, Affine.determinant.
  simpl.
  destruct (Req_dec_T (1 * 1 - 0 * 0) 0) as [E | _]; [lra |].
  simpl.
  replace (IZR x * (1 * (1 / (1 * 1 - 0 * 0)))
           + IZR y * (- 0 * (1 / (1 * 1 - 0 * 0)))
           + (- 0 * (1 * (1 / (1 * 1 - 0 * 0)))
              - 0 * (- 0 * (1 / (1 * 1 - 0 * 0))))) with (IZR x) by lra.
  replace (IZR x * (- 0 * (1 / (1 * 1 - 0 * 0)))
           + IZR y * (1 * (1 / (1 * 1 - 0 * 0)))
           + (- 0 * (- 0 * (1 / (1 * 1 - 0 * 0)))
              - 0 * (1 * (1 / (1 * 1 - 0 * 0))))) with (IZR y) by lra.
  now rewrite !py_int_IZR.
Qed.

(** *** The loop, one point at a time *)

Section ExtractionLoop.

Variable raster : grid.
Variable transform : Affine.t.
Variables height width : Z.
Variable nodata : option npfloat.

(** A point mapped out of bounds is skipped. *)
Lemma extract_loop_skip (point : R * R) (rest : list (R * R))
  (values : list npfloat) (reads : list (Z * Z)) (row col : Z) :
  world_to_index transform point = Returns (row, col) ->
  ~ in_bounds height width (row, col) ->
  extract_loop raster transform height width nodata (point :: rest) values reads
  = extract_loop raster transform height width nodata rest values reads.
Proof.
  unfold world_to_index. intros W B. simpl.
  destruct (Affine.invert transform) as [inv |]; simpl in *; [| discriminate].
  destruct (Affine.apply inv point) as [x y].
  injection W as <- <-.
  destruct (_ && _)%bool eqn:T; [| reflexivity].
  now apply in_bounds_test in T.
Qed.

(** A point mapped in bounds is read, and kept or dropped by the nodata
    test. *)
Lemma extract_loop_read (point : R * R) (rest : list (R * R))
  (values : list npfloat) (reads : list (Z * Z)) (row col : Z)
  (val : npfloat) (keep : bool) :
  world_to_index transform point = Returns (row, col) ->
  in_bounds height width (row, col) ->
  raster_get raster row col = Returns val ->
  keep_value nodata val = Returns keep ->
  extract_loop raster transform height width nodata (point :: rest) values reads
  = extract_loop raster transform height width nodata rest
      (if keep then values ++ [val] else values) (reads ++ [(row, col)]).
Proof.
  unfold world_to_index. intros W B G K. simpl.
  destruct (Affine.invert transform) as [inv |]; simpl in *; [| discriminate].
  destruct (Affine.apply inv point) as [x y].
  injection W as <- <-.
  apply in_bounds_test in B. rewrite B, G. simpl. rewrite K. simpl.
  now destruct keep.
Qed.

(** The accumulators only grow: the loop started on [values] and [reads]
    appends what the loop started on empty lists produces. *)
Lemma extract_loop_acc (geometry : list (R * R)) :
  forall (values : list npfloat) (reads : list (Z * Z)),
    extract_loop raster transform height width nodata geometry values reads
    = (r <- extract_loop raster transform height width nodata geometry [] [] ;;
       Returns (values ++ fst r, reads ++ snd r)).
Proof.
  induction geometry as [| point rest IH]; intros values reads.
  - simpl. now rewrite !app_nil_r.
  - simpl.
    destruct (Affine.invert transform) as [inv |]; simpl; [| reflexivity].
    destruct (Affine.apply inv point) as [x y].
    destruct (_ && _)%bool; [| apply IH].
    destruct (raster_get raster (py_int y) (py_int x)) as [val |]; simpl;
      [| reflexivity].
    destruct (keep_value nodata val) as [[|] |]; simpl; [| | reflexivity].
    + rewrite (IH (values ++ [val]) (reads ++ [(py_int y, py_int x)])),
        (IH [val] [(py_int y, py_int x)]).
      destruct (extract_loop _ _ _ _ _ rest [] []) as [[vs rs] |]; simpl;
        [| reflexivity].
      now rewrite <- !app_assoc.
    + rewrite (IH values (reads ++ [(py_int y, py_int x)])),
        (IH [] [(py_int y, py_int x)]).
      destruct (extract_loop _ _ _ _ _ rest [] []) as [[vs rs] |]; simpl;
        [| reflexivity].
      now rewrite <- !app_assoc.
Qed.

(** Two point lists in a row. *)
Lemma extract_loop_app (before after : list (R * R)) :
  forall (values : list npfloat) (reads : list (Z * Z)),
    extract_loop raster transform height width nodata (before ++ after)
      values reads
    = (r <- extract_loop raster transform height width nodata before
              values reads ;;
       extract_loop raster transform height width nodata after
         (fst r) (snd r)).
Proof.
  induction before as [| point rest IH]; intros values reads.
  - reflexivity.
  - simpl.
    destruct (Affine.invert transform) as [inv |]; simpl; [| reflexivity].
    destruct (Affine.apply inv point) as [x y].
    destruct (_ && _)%bool; [| apply IH].
    destruct (raster_get raster (py_int y) (py_int x)) as [val |]; simpl;
      [| reflexivity].
    destruct (keep_value nodata val) as [[|] |]; simpl;
      [apply IH | apply IH | reflexivity].
Qed.

End ExtractionLoop.

(** *** Reads inside the array return *)

Lemma np_axis_index_in_range (n : nat) (i : Z) :
  (0 <= i < Z.of_nat n)%Z -> np_axis_index n i = Returns (Z.to_nat i).
Proof.
  intros H. unfold np_axis_index.
  replace ((0 <=? i) && (i <? Z.of_nat n))%Z with true; [reflexivity |].
  symmetry. apply andb_true_iff. split; [apply Z.leb_le | apply Z.ltb_lt]; lia.
Qed.

Lemma raster_get_in_range (raster : grid) (row col : Z) :
  (0 <= row < Z.of_nat (List.length raster))%Z ->
  (0 <= col < Z.of_nat (List.length (nth (Z.to_nat row) raster [])))%Z ->
  raster_get raster row col
  = Returns (nth (Z.to_nat col) (nth (Z.to_nat row) raster []) NaN).
Proof.
  intros Hr Hc. unfold raster_get.
  rewrite np_axis_index_in_range by assumption. simpl.
  now rewrite np_axis_index_in_range by assumption.
Qed.






(* ================================================================= *)
(** ** Random background sampling *)

(** *** The mask and its true cells *)

Lemma valid_mask_some (raster : grid) (nd : npfloat) :
  valid_mask raster (Some nd)
  = Returns (map (map (fun v => negb (is_nodata (Some nd) v))) raster).
Proof.
  unfold valid_mask, is_nodata. simpl.
  destruct (np_isnan nd); f_equal;
    apply map_ext; intros cells; apply map_ext; intros v;
    simpl; now rewrite ?negb_involutive.
Qed.

Lemma in_where_row (r k : nat) (cells : list bool) (r' k' : nat) :
  In (r', k') (where_row r k cells)
  <-> r' = r /\ (k <= k')%nat /\ nth_error cells (k' - k) = Some true.
Proof.
  revert k. induction cells as [| m rest IH]; intros k; simpl.
  - split; [tauto |]. intros (_ & _ & H). destruct (k' - k)%nat; discriminate.
  - rewrite in_app_iff, IH. split.
    + intros [H | (-> & Hk & Hn)].
      * destruct m; [| destruct H]. destruct H as [H | []].
        injection H as <- <-. rewrite Nat.sub_diag. auto.
      * split; [reflexivity |]. split; [lia |].
        replace (k' - k)%nat with (S (k' - S k)) by lia. exact Hn.
    + intros (-> & Hk & Hn). destruct (Nat.eq_dec k k') as [<- | N].
      * left. rewrite Nat.sub_diag in Hn. simpl in Hn.
        injection Hn as ->. now left.
      * right. split; [reflexivity |]. split; [lia |].
        replace (k' - k)%nat with (S (k' - S k)) in Hn by lia. exact Hn.
Qed.

Lemma NoDup_where_row (r k : nat) (cells : list bool) :
  NoDup (where_row r k cells).
Proof.
  revert k. induction cells as [| m rest IH]; intros k; simpl.
  - constructor.
  - apply NoDup_app; [| apply IH |].
    + destruct m; repeat constructor. intros [].
    + intros [r' k'] H N. apply in_where_row in N.
      destruct m; [| destruct H]. destruct H as [H | []].
      injection H as <- <-. lia.
Qed.

Lemma in_where_from (r : nat) (mask : list (list bool)) (r' k' : nat) :
  In (r', k') (where_from r mask)
  <-> (r <= r')%nat
      /\ exists cells, nth_error mask (r' - r) = Some cells
                       /\ nth_error cells k' = Some true.
Proof.
  revert r. induction mask as [| cells rest IH]; intros r; simpl.
  - split; [tauto |]. intros (_ & c & H & _).
    destruct (r' - r)%nat; discriminate.
  - rewrite in_app_iff, in_where_row, IH, Nat.sub_0_r. split.
    + intros [(-> & _ & Hn) | (Hr & c & Hc & Hn)].
      * split; [lia |]. exists cells. now rewrite Nat.sub_diag.
      * split; [lia |]. exists c.
        replace (r' - r)%nat with (S (r' - S r)) by lia. now split.
    + intros (Hr & c & Hc & Hn). destruct (Nat.eq_dec r r') as [<- | N].
      * left. rewrite Nat.sub_diag in Hc. simpl in Hc.
        injection Hc as ->. repeat split; [lia | assumption].
      * right. split; [lia |]. exists c.
        replace (r' - r)%nat with (S (r' - S r)) in Hc by lia. now split.
Qed.

Lemma NoDup_where_from (r : nat) (mask : list (list bool)) :
  NoDup (where_from r mask).
Proof.
  revert r. induction mask as [| cells rest IH]; intros r; simpl.
  - constructor.
  - apply NoDup_app; [apply NoDup_where_row | apply IH |].
    intros [r' k'] H N.
    apply in_where_row in H. apply in_where_from in N. lia.
Qed.

(** The valid cells are the cells of the array whose value is not the
    sentinel, each listed once. *)
Lemma in_valid_cells (raster : grid) (nodata : option npfloat) (r k : nat) :
  In (r, k) (valid_cells raster nodata)
  <-> exists cells v, nth_error raster r = Some cells
                      /\ nth_error cells k = Some v
                      /\ is_nodata nodata v = false.
Proof.
  unfold valid_cells. rewrite in_where_from, Nat.sub_0_r. split.
  - intros (_ & bs & Hr & Hk).
    rewrite nth_error_map in Hr.
    destruct (nth_error raster r) as [cells |] eqn:Er; [| discriminate].
    injection Hr as <-. rewrite nth_error_map in Hk.
    destruct (nth_error cells k) as [v |] eqn:Ek; [| discriminate].
    injection Hk as Hk. exists cells, v.
    split; [reflexivity |]. split; [exact Ek |].
    now apply negb_true_iff.
  - intros (cells & v & Hr & Hk & Hv). split; [lia |].
    exists (map (fun v => negb (is_nodata nodata v)) cells).
    rewrite !nth_error_map, Hr, Hk. simpl. now rewrite Hv.
Qed.

Lemma NoDup_valid_cells (raster : grid) (nodata : option npfloat) :
  NoDup (valid_cells raster nodata).
Proof. apply NoDup_where_from. Qed.

(** *** Index arrays *)

Lemma take_in_range {A : Type} (a : list A) (d : A) (idx : list nat) :
  Forall (fun i => (i < List.length a)%nat) idx ->
  take a idx = Returns (map (fun i => nth i a d) idx).
Proof.
  induction 1 as [| i rest Hi _ IH]; simpl.
  - reflexivity.
  - unfold list_get. rewrite (nth_error_nth' a d Hi). simpl.
    now rewrite IH.
Qed.

Lemma map_nth_seq {A : Type} (l : list A) (d : A) :
  map (fun i => nth i l d) (seq 0 (List.length l)) = l.
Proof.
  induction l as [| x l IH]; simpl.
  - reflexivity.
  - f_equal. rewrite <- seq_shift, map_map. exact IH.
Qed.

Lemma combine_fst_snd {A B : Type} (l : list (A * B)) :
  combine (map fst l) (map snd l) = l.
Proof.
  induction l as [| [x y] l IH]; simpl; [reflexivity | now rewrite IH].
Qed.

Lemma np_axis_index_nonneg (n : nat) (i : Z) (j : nat) :
  (0 <= i)%Z -> np_axis_index n i = Returns j ->
  j = Z.to_nat i /\ (j < n)%nat.
Proof.
  intros Hi. unfold np_axis_index.
  destruct ((0 <=? i) && (i <? Z.of_nat n))%Z eqn:T.
  - intros E. injection E as <-.
    apply andb_true_iff in T. destruct T as [_ T].
    apply Z.ltb_lt in T. split; [reflexivity | lia].
  - destruct ((- Z.of_nat n <=? i) && (i <? 0))%Z eqn:U; [| discriminate].
    apply andb_true_iff in U. destruct U as [_ U].
    apply Z.ltb_lt in U. lia.
Qed.

(** A read at non-negative indices that returns is a read of a cell of
    the array. *)
Lemma raster_get_nonneg (raster : grid) (row col : Z) (val : npfloat) :
  (0 <= row)%Z -> (0 <= col)%Z ->
  raster_get raster row col = Returns val ->
  exists cells, nth_error raster (Z.to_nat row) = Some cells
                /\ nth_error cells (Z.to_nat col) = Some val.
Proof.
  intros Hr Hc. unfold raster_get.
  destruct (np_axis_index (List.length raster) row) as [r |] eqn:Er;
    [| discriminate].
  cbn [bind].
  destruct (np_axis_index (List.length (nth r raster [])) col) as [k |] eqn:Ek;
    [| discriminate].
  cbn [bind]. intros E. injection E as <-.
  apply np_axis_index_nonneg in Er; [| assumption]. destruct Er as [-> Lr].
  apply np_axis_index_nonneg in Ek; [| assumption]. destruct Ek as [-> Lk].
  exists (nth (Z.to_nat row) raster []). split; now apply nth_error_nth'.
Qed.

Lemma raster_get_cell (raster : grid) (r k : nat) (cells : list npfloat)
  (v : npfloat) :
  nth_error raster r = Some cells ->
  nth_error cells k = Some v ->
  raster_get raster (Z.of_nat r) (Z.of_nat k) = Returns (cell_value raster (r, k)).
Proof.
  intros Hr Hk.
  assert (Lr : (r < List.length raster)%nat).
  { apply nth_error_Some. now rewrite Hr. }
  assert (Lk : (k < List.length cells)%nat).
  { apply nth_error_Some. now rewrite Hk. }
  assert (N : nth r raster [] = cells) by now apply nth_error_nth.
  unfold cell_value. cbn [fst snd].
  rewrite raster_get_in_range; rewrite ?Nat2Z.id, ?N; [reflexivity | lia | lia].
Qed.

Lemma take2_cells (raster : grid) (cells : list (nat * nat)) :
  Forall (fun rc => exists row v, nth_error raster (fst rc) = Some row
                                  /\ nth_error row (snd rc) = Some v) cells ->
  take2 raster (map fst cells) (map snd cells)
  = Returns (map (cell_value raster) cells).
Proof.
  induction 1 as [| [r k] rest (row & v & Hr & Hk) _ IH]; simpl.
  - reflexivity.
  - simpl in Hr, Hk. rewrite (raster_get_cell raster r k row v Hr Hk).
    cbn [bind]. now rewrite IH.
Qed.

(** *** Sampling every valid cell *)

(** A value returned by the extraction comes from a valid cell; so there
    is a sentinel and at least one valid cell. *)
Lemma extracted_value_has_valid_cell
  (raster : grid) (transform : Affine.t) (height width : Z)
  (nodata : option npfloat) (gdf : list (R * R))
  (values : list npfloat) (reads : list (Z * Z)) :
  extract_trace raster transform height width nodata gdf
  = Returns (values, reads) ->
  values <> [] ->
  exists nd cell, nodata = Some nd /\ In cell (valid_cells raster nodata).
Proof.
  intros E N.
  assert (I : Forall (fun _ => exists nd cell,
                          nodata = Some nd
                          /\ In cell (valid_cells raster nodata)) values
              /\ Forall (fun _ => True) reads).
  { eapply extract_loop_invariant; [| | exact E | constructor | constructor].
    - intros row col val [Br Bc] G K. simpl in Br, Bc.
      apply keep_value_true in K. destruct K as (nd & Hnd & K).
      apply raster_get_nonneg in G; [| lia | lia].
      destruct G as (cells & Hr & Hc).
      exists nd, (Z.to_nat row, Z.to_nat col). split; [assumption |].
      apply in_valid_cells. now exists cells, val.
    - trivial. }
  destruct I as [I _]. destruct values as [| v rest]; [contradiction |].
  now inversion I.
Qed.

(** When at least as many values were extracted as there are valid cells,
    and there is a valid cell, the sampling block draws every valid cell,
    in the order of the shuffle. *)
Lemma random_sampling_all (permutation : nat -> list nat) (raster : grid)
  (nd : npfloat) (occurrence_values : list npfloat) :
  let cells := valid_cells raster (Some nd) in
  (forall n, Permutation (permutation n) (seq 0 n)) ->
  (0 < List.length cells <= List.length occurrence_values)%nat ->
  exists s,
    random_sampling permutation raster (Some nd) occurrence_values = Returns s
    /\ sample_cells s
       = map (fun i => nth i cells (0%nat, 0%nat))
           (permutation (List.length cells))
    /\ random_values s = map (cell_value raster) (sample_cells s).
Proof.
  intros cells Hperm [Hpos Hle].
  set (n := List.length cells).
  set (sel := map (fun i => nth i cells (0%nat, 0%nat)) (permutation n)).
  assert (Hlen : List.length (permutation n) = n).
  { rewrite (Permutation_length (Hperm n)). apply length_seq. }
  assert (Hidx : Forall (fun i => (i < n)%nat) (permutation n)).
  { apply Forall_forall. intros i Hi.
    apply (Permutation_in _ (Hperm n)) in Hi. apply in_seq in Hi. lia. }
  assert (Hsel : Forall (fun rc => In rc cells) sel).
  { apply Forall_forall. intros rc Hrc. apply in_map_iff in Hrc.
    destruct Hrc as (i & <- & Hi). apply nth_In.
    rewrite Forall_forall in Hidx. now apply Hidx. }
  exists (mk_sampling (map fst sel) (map snd sel) (map (cell_value raster) sel)).
  unfold sample_cells. cbn [sample_rows sample_cols random_values].
  rewrite combine_fst_snd. split; [| split; reflexivity].
  unfold random_sampling. rewrite valid_mask_some. cbn [bind].
  unfold np_where. fold (valid_cells raster (Some nd)). fold cells.
  rewrite !length_map. fold n.
  rewrite Nat.min_l by assumption.
  destruct (Nat.eqb_spec n 0) as [Z0 | _]; [lia |].
  unfold np_random_choice. rewrite Nat.leb_refl. cbn [bind].
  rewrite firstn_all2 by lia.
  rewrite (take_in_range (map fst cells) (fst (0%nat, 0%nat)))
    by now rewrite length_map.
  cbn [bind].
  rewrite (take_in_range (map snd cells) (snd (0%nat, 0%nat)))
    by now rewrite length_map.
  cbn [bind].
  replace (map (fun i => nth i (map fst cells) (fst (0%nat, 0%nat)))
             (permutation n)) with (map fst sel)
    by (unfold sel; rewrite map_map; apply map_ext; intros i;
        now rewrite map_nth).
  replace (map (fun i => nth i (map snd cells) (snd (0%nat, 0%nat)))
             (permutation n)) with (map snd sel)
    by (unfold sel; rewrite map_map; apply map_ext; intros i;
        now rewrite map_nth).
  rewrite take2_cells; [reflexivity |].
  eapply Forall_impl; [| exact Hsel].
  intros [r k] Hrc. apply in_valid_cells in Hrc.
  destruct Hrc as (row & v & Hr & Hk & _). now exists row, v.
Qed.

(** With no valid cell the block stops at its guard. *)
Lemma random_sampling_no_valid_cell (permutation : nat -> list nat)
  (raster : grid) (nd : npfloat) (occurrence_values : list npfloat) :
  valid_cells raster (Some nd) = [] ->
  random_sampling permutation raster (Some nd) occurrence_values
  = Raises (ValueError "No valid pixels for random sampling").
Proof.
  intros H. unfold random_sampling. rewrite valid_mask_some. cbn [bind].
  unfold np_where. fold (valid_cells raster (Some nd)). now rewrite H.
Qed.

(** C8.  When more values were extracted (the count the sampling block
    takes) than the grid has valid cells, the block returns exactly as many
    values as there are valid cells, read at pairwise distinct cells: every
    valid cell once. *)
Theorem background_sample_clamps_to_valid_cells
  (permutation : nat -> list nat) (raster : grid) (transform : Affine.t)
  (height width : Z) (nodata : option npfloat) (gdf : list (R * R))
  (occurrence_values : list npfloat) :
  (forall n, Permutation (permutation n) (seq 0 n)) ->
  extract_values raster transform height width nodata gdf
  = Returns occurrence_values ->
  (List.length (valid_cells raster nodata)
   < List.length occurrence_values)%nat ->
  exists s,
    random_sampling permutation raster nodata occurrence_values = Returns s
    /\ List.length (random_values s) = List.length (valid_cells raster nodata)
    /\ NoDup (sample_cells s)
    /\ Permutation (sample_cells s) (valid_cells raster nodata)
    /\ random_values s = map (cell_value raster) (sample_cells s).
Proof.
  intros Hperm E Hlt.
  unfold extract_values in E.
  destruct (extract_trace raster transform height width nodata gdf)
    as [[values reads] |] eqn:T; [| discriminate].
  cbn [bind fst] in E. injection E as ->.
  assert (N : occurrence_values <> []).
  { intros ->. simpl in Hlt. lia. }
  destruct (extracted_value_has_valid_cell _ _ _ _ _ _ _ _ T N)
    as (nd & cell & -> & Hcell).
  assert (Hpos : (0 < List.length (valid_cells raster (Some nd)))%nat).
  { destruct (valid_cells raster (Some nd)); [destruct Hcell | simpl; lia]. }
  destruct (random_sampling_all permutation raster nd occurrence_values Hperm)
    as (s & Es & Ec & Ev); [lia |].
  assert (P : Permutation (sample_cells s) (valid_cells raster (Some nd))).
  { rewrite Ec. eapply Permutation_trans.
    - apply Permutation_map, Hperm.
    - rewrite map_nth_seq. apply Permutation_refl. }
  exists s. split; [exact Es |]. split; [| split; [| split]].
  - rewrite Ev, length_map. now apply Permutation_length.
  - apply (Permutation_NoDup (Permutation_sym P)), NoDup_valid_cells.
  - exact P.
  - exact Ev.
Qed.

(** *** A run on a one-cell grid *)

Lemma keep_value_example : keep_value (Some (Fin 0)) (Fin 1) = Returns true.
Proof.
  unfold keep_value. simpl.
  destruct (Req_dec_T 1 0) as [E | _]; [lra | reflexivity].
Qed.

Lemma extract_trace_example :
  extract_trace [[Fin 1]] identity_transform 1 1 (Some (Fin 0))
    [(IZR 0, IZR 0); (IZR 0, IZR 0)]
  = Returns ([Fin 1; Fin 1], [(0%Z, 0%Z); (0%Z, 0%Z)]).
Proof.
  assert (B : in_bounds 1 1 (0%Z, 0%Z)) by (unfold in_bounds; simpl; lia).
  assert (G : raster_get [[Fin 1]] 0 0 = Returns (Fin 1)) by reflexivity.
  unfold extract_trace.
  pose proof (fun rest values reads =>
    extract_loop_read [[Fin 1]] identity_transform 1 1 (Some (Fin 0))
      (IZR 0, IZR 0) rest values reads 0 0 (Fin 1) true
      (world_to_index_identity 0 0) B G keep_value_example) as St.
  now rewrite !St.
Qed.

Lemma valid_cells_example :
  valid_cells [[Fin 1]] (Some (Fin 0)) = [(0%nat, 0%nat)].
Proof.
  unfold valid_cells, is_nodata. simpl.
  destruct (Req_dec_T 1 0) as [E | _]; [lra | reflexivity].
Qed.

Lemma extract_skips_nodata_within_bounds_witness :
  Forall (fun v => is_nodata (Some (Fin 0)) v = false) [Fin 1; Fin 1]
  /\ Forall (in_bounds 1 1) [(0%Z, 0%Z); (0%Z, 0%Z)].
Proof.
  destruct (extract_skips_nodata_within_bounds
              [[Fin 1]] identity_transform 1 1 (Some (Fin 0))
              [(IZR 0, IZR 0); (IZR 0, IZR 0)]
              [Fin 1; Fin 1] [(0%Z, 0%Z); (0%Z, 0%Z)]
              extract_trace_example) as (_ & V & I & _).
  split; assumption.
Defined.

Lemma background_sample_clamps_to_valid_cells_witness :
  exists s,
    random_sampling identity_shuffle [[Fin 1]] (Some (Fin 0)) [Fin 1; Fin 1]
    = Returns s
    /\ List.length (random_values s) = 1%nat.
Proof.
  assert (E : extract_values [[Fin 1]] identity_transform 1 1 (Some (Fin 0))
                [(IZR 0, IZR 0); (IZR 0, IZR 0)] = Returns [Fin 1; Fin 1]).
  { unfold extract_values. now rewrite extract_trace_example. }
  assert (L : (List.length (valid_cells [[Fin 1]] (Some (Fin 0)))
               < List.length [Fin 1; Fin 1])%nat).
  { rewrite valid_cells_example. simpl. lia. }
  destruct (background_sample_clamps_to_valid_cells
              identity_shuffle [[Fin 1]] identity_transform 1 1
              (Some (Fin 0)) [(IZR 0, IZR 0); (IZR 0, IZR 0)] [Fin 1; Fin 1]
              (fun n => Permutation_refl (seq 0 n)) E L)
    as (s & Es & Ls & _).
  exists s. split; [exact Es |].
  rewrite Ls, valid_cells_example. reflexivity.
Defined.

(* ================================================================= *)
(** ** The discrimination score *)

Lemma np_lt_asym (a b : npfloat) :
  np_lt a b = true -> np_lt b a = false /\ np_ne b a = true.
Proof.
  destruct a as [x | | |], b as [y | | |]; simpl;
    try discriminate; try (now split).
  destruct (Rlt_dec x y) as [L | _]; [| discriminate]. intros _.
  destruct (Rlt_dec y x) as [L' | _]; [lra |].
  destruct (Req_dec_T y x) as [E | _]; [lra | now split].
Qed.

Lemma np_ne_false_lt (a b : npfloat) :
  np_ne a b = false -> np_lt b a = false.
Proof.
  destruct a as [x | | |], b as [y | | |]; simpl;
    try discriminate; try reflexivity.
  destruct (Req_dec_T x y) as [E | _]; [| discriminate]. intros _.
  destruct (Rlt_dec y x) as [L | _]; [lra | reflexivity].
Qed.

Lemma pair_score_above (fg bg : npfloat) :
  np_lt bg fg = true -> pair_score fg bg = 1.
Proof. unfold pair_score. now intros ->. Qed.

Lemma pair_score_below (fg bg : npfloat) :
  np_lt fg bg = true -> pair_score fg bg = 0.
Proof.
  intros H. apply np_lt_asym in H. destruct H as [H1 H2].
  unfold pair_score.
  destruct (np_lt bg fg) eqn:L.
  - apply np_lt_asym in L. destruct L as [L _]. congruence.
  - destruct fg as [x | | |], bg as [y | | |]; simpl in *;
      try discriminate; try reflexivity.
    destruct (Req_dec_T y x) as [E | N]; [discriminate |].
    destruct (Req_dec_T x y) as [E | _]; [congruence | reflexivity].
Qed.

Lemma pair_score_tie (fg bg : npfloat) :
  np_ne fg bg = false -> pair_score fg bg = 1 / 2.
Proof.
  intros H. unfold pair_score.
  now rewrite (np_ne_false_lt _ _ H), H.
Qed.

Lemma sum_R_const (c : R) (f : npfloat -> R) (l : list npfloat) :
  (forall x, In x l -> f x = c) ->
  sum_R (map f l) = INR (List.length l) * c.
Proof.
  induction l as [| x l IH]; intros H.
  - simpl. lra.
  - cbn [map sum_R fold_right List.length]. rewrite S_INR.
    fold (sum_R (map f l)).
    rewrite IH by (intros y Hy; apply H; now right).
    rewrite (H x) by now left. lra.
Qed.

(** When every pair scores [c], the pairs total [|fg| * |bg| * c]. *)
Lemma pairs_total_const (c : R) (fg bg : list npfloat) :
  (forall f b, In f fg -> In b bg -> pair_score f b = c) ->
  pairs_total fg bg = INR (List.length fg) * (INR (List.length bg) * c).
Proof.
  intros H. unfold pairs_total. apply sum_R_const.
  intros f Hf. apply sum_R_const. intros b Hb. now apply H.
Qed.

(** The labels the script builds select the two samples again. *)
Lemma scores_of_zeros (label : npfloat) (bg : list npfloat) :
  scores_of label (np_zeros_like bg) bg
  = if np_ne (Fin 0) label then [] else bg.
Proof.
  unfold np_zeros_like.
  induction bg as [| b bg IH]; cbn [map scores_of].
  - now destruct (np_ne (Fin 0) label).
  - rewrite IH. now destruct (np_ne (Fin 0) label).
Qed.

Lemma scores_of_foreground (fg bg : list npfloat) :
  scores_of (Fin 1) (np_ones_like fg ++ np_zeros_like bg) (fg ++ bg) = fg.
Proof.
  induction fg as [| f fg IH]; simpl.
  - rewrite scores_of_zeros. simpl.
    destruct (Req_dec_T 0 1) as [E | _]; [lra | reflexivity].
  - destruct (Req_dec_T 1 1) as [_ | N]; [| lra].
    f_equal. exact IH.
Qed.

Lemma scores_of_background (fg bg : list npfloat) :
  scores_of (Fin 0) (np_ones_like fg ++ np_zeros_like bg) (fg ++ bg) = bg.
Proof.
  induction fg as [| f fg IH]; simpl.
  - rewrite scores_of_zeros. simpl.
    destruct (Req_dec_T 0 0) as [_ | N]; [reflexivity | lra].
  - destruct (Req_dec_T 1 0) as [E | _]; [lra |]. exact IH.
Qed.

(** On two non-empty samples in which every pair scores [c], the score of
    the script is [c]. *)
Lemma auc_score_const (c : R) (fg bg : list npfloat) :
  fg <> [] -> bg <> [] ->
  (forall f b, In f fg -> In b bg -> pair_score f b = c) ->
  auc_score fg bg = Returns (Fin c).
Proof.
  intros Hf Hb H. unfold auc_score, roc_auc_score.
  rewrite scores_of_foreground, scores_of_background.
  destruct fg as [| f fg]; [contradiction |].
  destruct bg as [| b bg]; [contradiction |].
  rewrite (pairs_total_const c) by assumption.
  do 2 f_equal.
  assert (0 < INR (List.length (f :: fg))) by (apply lt_0_INR; simpl; lia).
  assert (0 < INR (List.length (b :: bg))) by (apply lt_0_INR; simpl; lia).
  field. split; lra.
Qed.

(** C9.  On non-empty samples the score is 1 when every foreground score
    exceeds every background score, 0 when every foreground score is below
    every background score, and one half when every foreground score equals
    every background score; the three examples of the specification give
    1, 0 and one half. *)
Theorem auc_boundary_behaviour :
  (forall fg bg : list npfloat,
      fg <> [] -> bg <> [] ->
      (forall f b, In f fg -> In b bg -> np_lt b f = true) ->
      auc_score fg bg = Returns (Fin 1))
  /\ (forall fg bg : list npfloat,
         fg <> [] -> bg <> [] ->
         (forall f b, In f fg -> In b bg -> np_lt f b = true) ->
         auc_score fg bg = Returns (Fin 0))
  /\ (forall fg bg : list npfloat,
         fg <> [] -> bg <> [] ->
         (forall f b, In f fg -> In b bg -> np_ne f b = false) ->
         auc_score fg bg = Returns (Fin (1 / 2)))
  /\ auc_score [Fin (9 / 10); Fin (8 / 10)] [Fin (1 / 10); Fin (2 / 10)]
     = Returns (Fin 1)
  /\ auc_score [Fin (1 / 10); Fin (2 / 10)] [Fin (9 / 10); Fin (8 / 10)]
     = Returns (Fin 0)
  /\ auc_score [Fin (5 / 10); Fin (5 / 10)] [Fin (5 / 10); Fin (5 / 10)]
     = Returns (Fin (1 / 2)).
Proof.
  assert (A : forall fg bg : list npfloat,
             fg <> [] -> bg <> [] ->
             (forall f b, In f fg -> In b bg -> np_lt b f = true) ->
             auc_score fg bg = Returns (Fin 1)).
  { intros fg bg Hf Hb H. apply auc_score_const; try assumption.
    intros f b If Ib. apply pair_score_above. now apply H. }
  assert (B : forall fg bg : list npfloat,
             fg <> [] -> bg <> [] ->
             (forall f b, In f fg -> In b bg -> np_lt f b = true) ->
             auc_score fg bg = Returns (Fin 0)).
  { intros fg bg Hf Hb H. apply auc_score_const; try assumption.
    intros f b If Ib. apply pair_score_below. now apply H. }
  assert (C : forall fg bg : list npfloat,
             fg <> [] -> bg <> [] ->
             (forall f b, In f fg -> In b bg -> np_ne f b = false) ->
             auc_score fg bg = Returns (Fin (1 / 2))).
  { intros fg bg Hf Hb H. apply auc_score_const; try assumption.
    intros f b If Ib. apply pair_score_tie. now apply H. }
  split; [exact A |]. split; [exact B |]. split; [exact C |].
  split; [| split].
  - apply A; try discriminate.
    intros f b [<- | [<- | []]] [<- | [<- | []]]; simpl; decide_R; reflexivity.
  - apply B; try discriminate.
    intros f b [<- | [<- | []]] [<- | [<- | []]]; simpl; decide_R; reflexivity.
  - apply C; try discriminate.
    intros f b [<- | [<- | []]] [<- | [<- | []]]; simpl; decide_R; reflexivity.
Qed.

Lemma auc_boundary_behaviour_witness :
  auc_score [Fin 2; Fin 3] [Fin 1] = Returns (Fin 1).
Proof.
  apply (proj1 auc_boundary_behaviour); try discriminate.
  intros f b [<- | [<- | []]] [<- | []]; simpl;
    match goal with
    | |- context [Rlt_dec ?x ?y] =>
        destruct (Rlt_dec x y) as [_ | N]; [reflexivity | exfalso; lra]
    end.
Defined.

(* ================================================================= *)
(** ** Further properties of the membership engine *)

Lemma exp_le (x y : R) : x <= y -> exp x <= exp y.
Proof.
  intros [H | ->]; [left; now apply exp_increasing | right; reflexivity].
Qed.

Lemma np_lt_fin_false (x y : R) : y <= x -> np_lt (Fin x) (Fin y) = false.
Proof.
  intros H. simpl. destruct (Rlt_dec x y) as [L | _]; [lra | reflexivity].
Qed.

(** X1.  For a positive spread the membership never increases with the
    cell value and is never negative: of two cells the one with the larger
    value never gets the larger membership. *)
Theorem membership_never_increases (v1 v2 c s : R) :
  0 < s -> v1 <= v2 ->
  np_lt (membership_value (Fin v1) (Fin c) (Fin s))
        (membership_value (Fin v2) (Fin c) (Fin s)) = false
  /\ np_lt (membership_value (Fin v1) (Fin c) (Fin s)) (Fin 0) = false.
Proof.
  intros Hs Hv. rewrite !membership_value_linear by lra.
  split.
  - apply np_lt_fin_false, exp_le. unfold Rdiv.
    apply Rmult_le_compat_r; [left; apply Rinv_0_lt_compat |]; lra.
  - apply np_lt_fin_false. left. apply exp_pos.
Qed.

Lemma membership_never_increases_witness :
  np_lt (membership_value (Fin 0) (Fin 50) (Fin 15))
        (membership_value (Fin 100) (Fin 50) (Fin 15)) = false.
Proof.
  apply (proj1 (membership_never_increases 0 100 50 15 ltac:(lra) ltac:(lra))).
Defined.

(** X2.  For a positive spread the centre splits the values: the
    membership is exactly 1 at the centre, never below 1 at or below the
    centre and never above 1 at or above it. *)
Theorem membership_sides_of_center (v c s : R) :
  0 < s ->
  membership_value (Fin c) (Fin c) (Fin s) = Fin 1
  /\ (v <= c ->
      np_lt (membership_value (Fin v) (Fin c) (Fin s)) (Fin 1) = false)
  /\ (c <= v ->
      np_lt (Fin 1) (membership_value (Fin v) (Fin c) (Fin s)) = false).
Proof.
  intros Hs. split; [apply membership_at_center; lra |].
  rewrite membership_value_linear by lra.
  assert (Hi : 0 < / (2 * s)) by (apply Rinv_0_lt_compat; lra).
  split; intros Hv; apply np_lt_fin_false; rewrite <- exp_0; apply exp_le;
    unfold Rdiv.
  - apply Rmult_le_pos; lra.
  - replace 0 with (0 * / (2 * s)) by ring.
    apply Rmult_le_compat_r; lra.
Qed.

Lemma membership_sides_of_center_witness :
  np_lt (membership_value (Fin 40) (Fin 50) (Fin 15)) (Fin 1) = false.
Proof.
  apply (proj1 (proj2 (membership_sides_of_center 40 50 15 ltac:(lra)))).
  lra.
Defined.

(* ================================================================= *)
(** ** Further properties of the overlay engine *)

(** *** Shapes *)

Lemma shape_grid_map (f : npfloat -> npfloat) (g : grid) :
  shape (grid_map f g) = shape g.
Proof.
  unfold shape, grid_map. rewrite map_map. apply map_ext.
  intros cells. apply length_map.
Qed.

Lemma Forall2_map_right {A B : Type} (P : A -> B -> Prop) (f : A -> B)
  (l : list A) :
  (forall x, P x (f x)) -> Forall2 P l (map f l).
Proof. intros H. induction l; simpl; constructor; auto. Qed.

Lemma same_shape_iff (g h : grid) : same_shape g h = true <-> shape g = shape h.
Proof.
  unfold same_shape.
  destruct (list_eq_dec Nat.eq_dec (shape g) (shape h)); split;
    intros; try assumption; try reflexivity; try discriminate; contradiction.
Qed.

Lemma forallb_same_shape (first : grid) (rest : list grid) :
  forallb (same_shape first) rest = true
  <-> Forall (fun g => shape g = shape first) rest.
Proof.
  rewrite forallb_forall, Forall_forall.
  split; intros H g Hg; specialize (H g Hg).
  - symmetry. now apply same_shape_iff.
  - apply same_shape_iff. now symmetry.
Qed.

Lemma length_zip_with {A : Type} (f : A -> A -> A) (l k : list A) :
  List.length l = List.length k ->
  List.length (zip_with f l k) = List.length l.
Proof.
  revert k. induction l as [| x l IH]; intros [| y k] H; simpl in *;
    try reflexivity; try discriminate.
  f_equal. apply IH. now injection H.
Qed.

Lemma shape_grid_zip (f : npfloat -> npfloat -> npfloat) (g h : grid) :
  shape h = shape g -> shape (grid_zip f g h) = shape g.
Proof.
  unfold shape, grid_zip. revert h.
  induction g as [| x g IH]; intros [| y h] H; simpl in *;
    try reflexivity; try discriminate.
  injection H as Hx Hg. f_equal.
  - apply length_zip_with. now symmetry.
  - now apply IH.
Qed.

Lemma shape_fold_grid_zip (f : npfloat -> npfloat -> npfloat)
  (rest : list grid) :
  forall first : grid,
    Forall (fun g => shape g = shape first) rest ->
    shape (fold_left (grid_zip f) rest first) = shape first.
Proof.
  induction rest as [| g rest IH]; intros first H; simpl.
  - reflexivity.
  - inversion H as [| ? ? Hg Hrest]; subst.
    rewrite IH.
    + now apply shape_grid_zip.
    + eapply Forall_impl; [| exact Hrest].
      intros h Hh. simpl in Hh. rewrite Hh. symmetry.
      now apply shape_grid_zip.
Qed.

Lemma overlay_returns_same_shape (first : grid) (rest : list grid)
  (gamma : npfloat) :
  Forall (fun g => shape g = shape first) rest ->
  exists out, fuzzy_gamma_overlay (first :: rest) gamma = Returns out
              /\ shape out = shape first.
Proof.
  intros H. pose proof (proj2 (forallb_same_shape first rest) H) as B.
  unfold fuzzy_gamma_overlay. rewrite !np_reduce_returns by assumption.
  cbn [bind]. eexists. split; [reflexivity |].
  rewrite shape_grid_zip; rewrite !shape_fold_grid_zip by assumption;
    reflexivity.
Qed.

Lemma overlay_raises_other_shape (first : grid) (rest : list grid)
  (gamma : npfloat) :
  ~ Forall (fun g => shape g = shape first) rest ->
  fuzzy_gamma_overlay (first :: rest) gamma
  = Raises (ValueError "inhomogeneous shape").
Proof.
  intros H. unfold fuzzy_gamma_overlay, np_reduce.
  destruct (forallb (same_shape first) rest) eqn:B; [| reflexivity].
  apply forallb_same_shape in B. contradiction.
Qed.

(** *** Parameters are not validated: what the calls do instead *)

(** C6, amended.  Neither operation checks the offending parameter.  With
    spread 0 the membership operation does not raise: for every grid and
    centre it returns a grid of the input's shape, in which every cell
    equal to a finite centre is NaN.  For every gamma, inside [0, 1] or not,
    the overlay operation on a non-empty list of layers of one shape does
    not raise: it returns a grid of that shape. *)
Theorem parameters_are_not_validated :
  (forall (array : grid) (c : npfloat),
      exists out,
        gaussian_membership array c (Fin 0) = Returns out
        /\ shape out = shape array
        /\ Forall2 (Forall2 (fun v o => forall r, c = Fin r -> v = Fin r ->
                                                   o = NaN))
             array out)
  /\ (forall (first : grid) (rest : list grid) (gamma : npfloat),
         Forall (fun g => shape g = shape first) rest ->
         exists out,
           fuzzy_gamma_overlay (first :: rest) gamma = Returns out
           /\ shape out = shape first).
Proof.
  split.
  - intros array c. eexists. split; [reflexivity |].
    split; [apply shape_grid_map |].
    unfold grid_map. apply Forall2_map_right. intros cells.
    apply Forall2_map_right. intros v r -> ->.
    rewrite membership_zero_spread. unfold zero_spread_cell.
    destruct (Rlt_dec r r) as [L | _]; [lra | reflexivity].
  - intros first rest gamma. apply overlay_returns_same_shape.
Qed.

Lemma parameters_are_not_validated_witness :
  exists out,
    fuzzy_gamma_overlay [[[Fin 1]]; [[Fin 1]]] (Fin 2) = Returns out
    /\ shape out = shape [[Fin 1]].
Proof.
  apply (proj2 parameters_are_not_validated [[Fin 1]] [[[Fin 1]]] (Fin 2)).
  repeat constructor.
Defined.

(** *** When the overlay returns *)

(** X4.  The overlay returns exactly on a non-empty list of layers that all
    have the shape of the first one, and the result has that shape; on an
    empty list and on layers of different shapes it raises [ValueError]. *)
Theorem overlay_returns_iff_same_shape (gamma : npfloat) :
  is_validation_error (fuzzy_gamma_overlay [] gamma)
  /\ forall (first : grid) (rest : list grid),
      (Forall (fun g => shape g = shape first) rest ->
       exists out, fuzzy_gamma_overlay (first :: rest) gamma = Returns out
                   /\ shape out = shape first)
      /\ (~ Forall (fun g => shape g = shape first) rest ->
          is_validation_error (fuzzy_gamma_overlay (first :: rest) gamma)).
Proof.
  split.
  - eexists. reflexivity.
  - intros first rest. split.
    + apply overlay_returns_same_shape.
    + intros H. rewrite overlay_raises_other_shape by assumption.
      eexists. reflexivity.
Qed.

Lemma overlay_returns_iff_same_shape_witness :
  exists out,
    fuzzy_gamma_overlay [[[Fin 1; Fin 0]]; [[Fin 0; Fin 1]]] (Fin (1 / 2))
    = Returns out
    /\ shape out = shape [[Fin 1; Fin 0]].
Proof.
  apply (proj1 (proj2 (overlay_returns_iff_same_shape (Fin (1 / 2)))
                  [[Fin 1; Fin 0]] [[[Fin 0; Fin 1]]])).
  repeat constructor.
Defined.

(** *** The order of the layers *)

Lemma np_minimum_comm (a b : npfloat) : np_minimum a b = np_minimum b a.
Proof.
  destruct a, b; simpl; try reflexivity. f_equal. apply Rmin_comm.
Qed.

Lemma np_minimum_assoc (a b c : npfloat) :
  np_minimum (np_minimum a b) c = np_minimum a (np_minimum b c).
Proof.
  destruct a, b, c; simpl; try reflexivity. f_equal. symmetry. apply Rmin_assoc.
Qed.

Lemma np_maximum_comm (a b : npfloat) : np_maximum a b = np_maximum b a.
Proof.
  destruct a, b; simpl; try reflexivity. f_equal. apply Rmax_comm.
Qed.

Lemma np_maximum_assoc (a b c : npfloat) :
  np_maximum (np_maximum a b) c = np_maximum a (np_maximum b c).
Proof.
  destruct a, b, c; simpl; try reflexivity. f_equal. symmetry. apply Rmax_assoc.
Qed.

Section Reduction.

Context {A : Type} (f : A -> A -> A).
Hypothesis f_comm : forall a b, f a b = f b a.
Hypothesis f_assoc : forall a b c, f (f a b) c = f a (f b c).

Lemma zip_with_comm (l k : list A) : zip_with f l k = zip_with f k l.
Proof.
  revert k. induction l as [| x l IH]; intros [| y k]; simpl;
    try reflexivity.
  now rewrite f_comm, IH.
Qed.

Lemma zip_with_assoc (l k m : list A) :
  zip_with f (zip_with f l k) m = zip_with f l (zip_with f k m).
Proof.
  revert k m. induction l as [| x l IH]; intros [| y k] [| z m]; simpl;
    try reflexivity.
  now rewrite f_assoc, IH.
Qed.

(** Folding a commutative, associative operation does not depend on the
    order of the list. *)
Lemma fold_left_permutation (l l' : list A) :
  Permutation l l' -> forall a, fold_left f l a = fold_left f l' a.
Proof.
  induction 1 as [| x l l' _ IH | x y l | l l' l'' _ IH1 _ IH2]; intros a;
    simpl.
  - reflexivity.
  - apply IH.
  - f_equal. now rewrite !f_assoc, (f_comm y x).
  - now rewrite IH1.
Qed.

(** The same when the first element of the list is the start value. *)
Lemma fold_left_head_permutation (x y : A) (xs ys : list A) :
  Permutation (x :: xs) (y :: ys) ->
  fold_left f xs x = fold_left f ys y.
Proof.
  intros P.
  assert (I : In x (y :: ys)).
  { apply (Permutation_in _ P). now left. }
  destruct I as [-> | I].
  - apply fold_left_permutation. now apply Permutation_cons_inv in P.
  - apply in_split in I. destruct I as (l1 & l2 & ->).
    assert (Q : Permutation xs (y :: l1 ++ l2)).
    { apply (Permutation_cons_inv (a := x)).
      rewrite P. rewrite perm_swap. apply perm_skip.
      symmetry. apply Permutation_middle. }
    rewrite (fold_left_permutation _ _ Q).
    rewrite (fold_left_permutation _ _
               (Permutation_sym (Permutation_middle l1 l2 x))).
    simpl. now rewrite f_comm.
Qed.

End Reduction.

Lemma same_shape_head_permutation (x y : grid) (xs ys : list grid) :
  Permutation (x :: xs) (y :: ys) ->
  forallb (same_shape x) xs = forallb (same_shape y) ys.
Proof.
  assert (H : forall (x y : grid) (xs ys : list grid),
             Permutation (x :: xs) (y :: ys) ->
             forallb (same_shape x) xs = true ->
             forallb (same_shape y) ys = true).
  { clear. intros x y xs ys P H.
    apply forallb_same_shape in H. apply forallb_same_shape.
    assert (All : Forall (fun g => shape g = shape x) (y :: ys)).
    { apply (Permutation_Forall P). now constructor. }
    inversion All as [| ? ? Hy Hys]; subst.
    eapply Forall_impl; [| exact Hys]. simpl. congruence. }
  intros P.
  destruct (forallb (same_shape x) xs) eqn:Bx,
           (forallb (same_shape y) ys) eqn:By; try reflexivity.
  - rewrite (H x y xs ys P Bx) in By. discriminate.
  - rewrite (H y x ys xs (Permutation_sym P) By) in Bx. discriminate.
Qed.

Lemma np_reduce_permutation (f : npfloat -> npfloat -> npfloat)
  (l l' : list grid) :
  (forall a b, f a b = f b a) ->
  (forall a b c, f (f a b) c = f a (f b c)) ->
  Permutation l l' ->
  np_reduce f l = np_reduce f l'.
Proof.
  intros Hc Ha P.
  destruct l as [| x xs], l' as [| y ys].
  - reflexivity.
  - now apply Permutation_nil_cons in P.
  - apply Permutation_sym in P. now apply Permutation_nil_cons in P.
  - unfold np_reduce. rewrite (same_shape_head_permutation x y xs ys P).
    destruct (forallb (same_shape y) ys); [| reflexivity].
    f_equal. apply fold_left_head_permutation; try assumption.
    + intros g h. apply zip_with_comm. intros r r'. now apply zip_with_comm.
    + intros g h k. apply zip_with_assoc. intros r r' r''.
      now apply zip_with_assoc.
Qed.

(** X5.  The overlay does not depend on the order of the layers: on two
    lists that are permutations of each other it gives the same outcome,
    grid or error. *)
Theorem overlay_order_independent (layers layers' : list grid)
  (gamma : npfloat) :
  Permutation layers layers' ->
  fuzzy_gamma_overlay layers gamma = fuzzy_gamma_overlay layers' gamma.
Proof.
  intros P. unfold fuzzy_gamma_overlay.
  rewrite (np_reduce_permutation np_minimum layers layers'
             np_minimum_comm np_minimum_assoc P).
  rewrite (np_reduce_permutation np_maximum layers layers'
             np_maximum_comm np_maximum_assoc P).
  reflexivity.
Qed.

Lemma overlay_order_independent_witness :
  fuzzy_gamma_overlay [[[Fin 1]]; [[NaN]]; [[Fin 0]]] (Fin (1 / 2))
  = fuzzy_gamma_overlay [[[NaN]]; [[Fin 1]]; [[Fin 0]]] (Fin (1 / 2)).
Proof.
  apply overlay_order_independent. apply perm_swap.
Defined.

(** *** The range of the result *)

Lemma Forall_zip_with {A : Type} (P Q S : A -> Prop) (f : A -> A -> A)
  (l k : list A) :
  (forall x y, P x -> Q y -> S (f x y)) ->
  Forall P l -> Forall Q k -> Forall S (zip_with f l k).
Proof.
  intros H Hl. revert k.
  induction Hl as [| x l Hx _ IH]; intros k Hk; simpl.
  - constructor.
  - destruct Hk as [| y k Hy Hk]; constructor; auto.
Qed.

Lemma grid_all_zip (P Q S : npfloat -> Prop)
  (f : npfloat -> npfloat -> npfloat) (g h : grid) :
  (forall a b, P a -> Q b -> S (f a b)) ->
  grid_all P g -> grid_all Q h -> grid_all S (grid_zip f g h).
Proof.
  intros H. unfold grid_all, grid_zip. apply Forall_zip_with.
  intros r r'. now apply Forall_zip_with.
Qed.

Lemma grid_all_fold (P : npfloat -> Prop) (f : npfloat -> npfloat -> npfloat)
  (rest : list grid) :
  (forall a b, P a -> P b -> P (f a b)) ->
  Forall (grid_all P) rest ->
  forall first, grid_all P first ->
                grid_all P (fold_left (grid_zip f) rest first).
Proof.
  intros H. induction 1 as [| g rest Hg _ IH]; intros first Hf; simpl.
  - exact Hf.
  - apply IH. now apply (grid_all_zip P P P).
Qed.

Lemma np_minimum_between (lo hi : R) (a b : npfloat) :
  fin_between lo hi a -> fin_between lo hi b ->
  fin_between lo hi (np_minimum a b).
Proof.
  intros (x & -> & Hx) (y & -> & Hy). exists (Rmin x y).
  split; [reflexivity |]. unfold Rmin. destruct (Rle_dec x y); lra.
Qed.

Lemma np_maximum_between (lo hi : R) (a b : npfloat) :
  fin_between lo hi a -> fin_between lo hi b ->
  fin_between lo hi (np_maximum a b).
Proof.
  intros (x & -> & Hx) (y & -> & Hy). exists (Rmax x y).
  split; [reflexivity |]. unfold Rmax. destruct (Rle_dec x y); lra.
Qed.

Lemma overlay_value_range (a o : npfloat) (g : R) :
  0 <= g <= 1 ->
  fin_between 0 1 a -> fin_between 0 1 o ->
  fin_between 0 (g * (1 - g)) (overlay_value a o (Fin g)).
Proof.
  intros Hg (x & -> & Hx) (y & -> & Hy).
  rewrite overlay_value_fin. eexists. split; [reflexivity |].
  assert (Hp : 0 <= g * (1 - g)) by (apply Rmult_le_pos; lra).
  assert (Hxy : 0 <= x * y <= 1).
  { split; [apply Rmult_le_pos; lra |].
    replace 1 with (1 * 1) by ring. apply Rmult_le_compat; lra. }
  replace (x * (1 - g) * (y * g)) with (x * y * (g * (1 - g))) by ring.
  split; [apply Rmult_le_pos; lra |].
  replace (g * (1 - g)) with (1 * (g * (1 - g))) at 2 by ring.
  apply Rmult_le_compat_r; lra.
Qed.

(** X6.  On layers whose cells all lie in [0, 1] and with gamma in [0, 1],
    every cell of the overlay lies in [0, 1/4]: the result never reaches the
    upper three quarters of the membership scale. *)
Theorem overlay_at_most_quarter (layers : list grid) (g : R) (out : grid) :
  Forall (grid_all (fin_between 0 1)) layers ->
  0 <= g <= 1 ->
  fuzzy_gamma_overlay layers (Fin g) = Returns out ->
  grid_all (fin_between 0 (1 / 4)) out.
Proof.
  intros Hl Hg E.
  assert (Hq : g * (1 - g) <= 1 / 4).
  { pose proof (Rle_0_sqr (g - 1 / 2)) as Hs. unfold Rsqr in Hs. lra. }
  unfold fuzzy_gamma_overlay, np_reduce in E.
  destruct layers as [| first rest]; [discriminate |].
  destruct (forallb (same_shape first) rest); [| discriminate].
  cbn [bind] in E. injection E as <-.
  inversion Hl as [| ? ? Hf Hr]; subst.
  apply (grid_all_zip (fin_between 0 1) (fin_between 0 1)).
  - intros a o Ha Ho.
    destruct (overlay_value_range a o g Hg Ha Ho) as (x & -> & Hx).
    exists x. split; [reflexivity | lra].
  - apply grid_all_fold; try assumption. apply np_minimum_between.
  - apply grid_all_fold; try assumption. apply np_maximum_between.
Qed.

Lemma overlay_at_most_quarter_witness :
  grid_all (fin_between 0 (1 / 4)) [[Fin (8 / 100)]].
Proof.
  refine (overlay_at_most_quarter
            [[[Fin (4 / 10)]]; [[Fin (8 / 10)]]] (1 / 2)
            [[Fin (8 / 100)]] _ _ _).
  - repeat constructor; eexists; (split; [reflexivity | lra]).
  - lra.
  - np_unfold. unfold Rmin, Rmax. decide_R. do 4 f_equal. lra.
Defined.

(* ================================================================= *)
(** ** Further properties of the processing loop *)

Lemma shape_grid_map_nan_to_num (f : npfloat -> npfloat) (arr : grid) :
  shape (grid_map f (np_nan_to_num arr)) = shape arr.
Proof. unfold np_nan_to_num. now rewrite !shape_grid_map. Qed.

Lemma np_nan_to_num_finite (arr : grid) :
  grid_all (fun a => exists r, a = Fin r) (np_nan_to_num arr).
Proof.
  unfold grid_all, np_nan_to_num, grid_map.
  apply Forall_map, Forall_forall. intros cells _.
  apply Forall_map, Forall_forall. intros [r | | |] _; eexists; reflexivity.
Qed.

(** A membership layer computed from an array without NaN or infinity,
    with a finite centre and a nonzero finite spread, has no NaN. *)
Lemma membership_layer_not_nan (arr : grid) (c s : R) :
  s <> 0 ->
  grid_all (fun a => exists r, a = Fin r) arr ->
  grid_all not_nan (grid_map (fun v => membership_value v (Fin c) (Fin s)) arr).
Proof.
  intros Hs H. unfold grid_all, grid_map in *.
  apply Forall_map. eapply Forall_impl; [| exact H].
  intros cells Hc. apply Forall_map. eapply Forall_impl; [| exact Hc].
  intros a [r ->]. unfold not_nan.
  now rewrite membership_value_fin.
Qed.

(** What the loop appends when it returns: one layer per raster, of the
    raster's shape and free of NaN; and it cannot get past the third entry
    of [centers]. *)
Lemma membership_loop_inv (rasters : list grid) :
  forall (i : nat) (acc out : list grid),
    membership_loop i rasters acc = Returns out ->
    (rasters = [] \/ (i + List.length rasters <= 3)%nat)
    /\ exists layers,
        out = acc ++ layers
        /\ Forall2 (fun r l => shape l = shape r) rasters layers
        /\ Forall (grid_all not_nan) layers.
Proof.
  induction rasters as [| arr rest IH]; intros i acc out E.
  - simpl in E. injection E as <-. split; [now left |].
    exists []. rewrite app_nil_r. repeat split; constructor.
  - cbn [membership_loop] in E.
    assert (S : exists c s,
               s <> 0
               /\ list_get centers i = Returns (Fin c)
               /\ list_get sigmas i = Returns (Fin s)).
    { destruct i as [| [| [| i]]].
      - exists 50, 15. repeat split. lra.
      - exists (3 / 10), (1 / 10). repeat split. lra.
      - exists 300, 60. repeat split. lra.
      - exfalso. unfold list_get, centers in E.
        destruct i; discriminate E. }
    destruct S as (c & s & Hs & Ec & Es). rewrite Ec, Es in E.
    unfold gaussian_membership in E. cbn [bind] in E.
    apply IH in E. destruct E as (B & layers & -> & F2 & Fn).
    assert (Hi : (i < 3)%nat).
    { destruct i as [| [| [| i]]]; try lia.
      unfold list_get, centers in Ec. destruct i; discriminate Ec. }
    split.
    + right. destruct B as [-> | B]; simpl in *; lia.
    + eexists (_ :: layers). rewrite <- app_assoc. split; [reflexivity |].
      split; constructor; try assumption.
      * apply shape_grid_map_nan_to_num.
      * apply membership_layer_not_nan; [assumption |].
        apply np_nan_to_num_finite.
Qed.

(** The loop returns when [centers] and [sigmas] have an entry for every
    raster. *)
Lemma membership_loop_returns (rasters : list grid) :
  forall (i : nat) (acc : list grid),
    (i + List.length rasters <= 3)%nat ->
    exists out, membership_loop i rasters acc = Returns out.
Proof.
  induction rasters as [| arr rest IH]; intros i acc H.
  - now exists acc.
  - cbn [membership_loop]. simpl in H.
    destruct i as [| [| [| i]]]; try lia;
      unfold list_get, centers, sigmas, gaussian_membership;
      cbn [nth_error bind]; apply IH; lia.
Qed.

(** Past the third raster the loop fails on [centers[i]]. *)
Lemma membership_loop_index_error (rasters : list grid) :
  forall (i : nat) (acc : list grid),
    rasters <> [] ->
    (3 < i + List.length rasters)%nat ->
    membership_loop i rasters acc
    = Raises (IndexError "list index out of range").
Proof.
  induction rasters as [| arr rest IH]; intros i acc N H.
  - contradiction.
  - cbn [membership_loop]. simpl in H.
    destruct i as [| [| [| i]]];
      unfold list_get, centers, sigmas, gaussian_membership;
      cbn [nth_error bind].
    1-3: destruct rest as [| arr' rest'];
         [simpl in H; lia | apply IH; [discriminate | simpl in *; lia]].
    now destruct i.
Qed.

(** X7.  The processing block needs between one and three rasters of one
    shape.  With none, the overlay of zero layers raises [ValueError]; with
    more than three, [centers[i]] raises [IndexError]; with layers of
    different shapes the overlay raises [ValueError]; otherwise the block
    returns one layer per raster and an overlay of the rasters' shape. *)
Theorem processing_raster_count (rasters : list grid) :
  (rasters = [] -> is_validation_error (processing rasters))
  /\ ((3 < List.length rasters)%nat ->
      processing rasters = Raises (IndexError "list index out of range"))
  /\ (forall first rest,
         rasters = first :: rest ->
         (List.length rasters <= 3)%nat ->
         (Forall (fun r => shape r = shape first) rest ->
          exists layers overlay,
            processing rasters = Returns (layers, overlay)
            /\ List.length layers = List.length rasters
            /\ shape overlay = shape first)
         /\ (~ Forall (fun r => shape r = shape first) rest ->
             is_validation_error (processing rasters))).
Proof.
  split; [| split].
  - intros ->. eexists. reflexivity.
  - intros H. unfold processing.
    rewrite membership_loop_index_error; [reflexivity | | simpl; lia].
    intros ->. simpl in H. lia.
  - intros first rest -> Hlen.
    destruct (membership_loop_returns (first :: rest) 0 [] Hlen) as [out E].
    destruct (membership_loop_inv _ _ _ _ E) as (_ & layers & -> & F2 & _).
    unfold processing. rewrite E. cbn [bind app].
    inversion F2 as [| ? l0 ? lrest H0 Hrest]; subst.
    assert (Sh : Forall (fun r => shape r = shape first) rest
                 <-> Forall (fun g => shape g = shape l0) lrest).
    { clear - H0 Hrest. rewrite H0.
      induction Hrest as [| r l rs ls Hrl _ IH].
      - split; constructor.
      - split; intros H; inversion H; subst; constructor;
          try (now apply IH); congruence. }
    split.
    + intros H. apply Sh in H.
      destruct (overlay_returns_same_shape l0 lrest gamma_value H)
        as (overlay & Eo & So).
      exists (l0 :: lrest), overlay. rewrite Eo. cbn [bind].
      split; [reflexivity |]. split; [| congruence].
      simpl. f_equal. symmetry. eapply Forall2_length. exact Hrest.
    + intros H.
      rewrite overlay_raises_other_shape by (now rewrite <- Sh).
      eexists. reflexivity.
Qed.

Lemma processing_raster_count_witness :
  exists layers overlay,
    processing [[[NaN; Fin 1]]; [[Fin 2; PInf]]] = Returns (layers, overlay)
    /\ List.length layers = 2%nat
    /\ shape overlay = shape [[NaN; Fin 1]].
Proof.
  destruct (processing_raster_count [[[NaN; Fin 1]]; [[Fin 2; PInf]]])
    as (_ & _ & H).
  destruct (H [[NaN; Fin 1]] [[[Fin 2; PInf]]] eq_refl) as [R _].
  - simpl. lia.
  - apply R. repeat constructor.
Defined.

(** X8.  Whenever the processing block returns, every membership layer has
    the shape of its raster and holds no NaN, whatever the rasters hold:
    [np.nan_to_num] removes NaN and infinities before the membership is
    computed. *)
Theorem processing_layers_not_nan (rasters layers : list grid)
  (overlay : grid) :
  processing rasters = Returns (layers, overlay) ->
  Forall2 (fun r l => shape l = shape r) rasters layers
  /\ Forall (grid_all not_nan) layers.
Proof.
  unfold processing. intros E.
  destruct (membership_loop 0 rasters []) as [out |] eqn:L; [| discriminate].
  cbn [bind] in E.
  destruct (fuzzy_gamma_overlay out gamma_value) as [o |]; [| discriminate].
  cbn [bind] in E. injection E as <- <-.
  apply membership_loop_inv in L.
  destruct L as (_ & ls & -> & F2 & Fn). now split.
Qed.

Lemma processing_layers_not_nan_witness :
  exists layers overlay,
    processing [[[NaN; Fin 1]]] = Returns (layers, overlay)
    /\ Forall (grid_all not_nan) layers.
Proof.
  destruct (membership_loop_returns [[[NaN; Fin 1]]] 0 []) as [out L].
  { simpl. lia. }
  destruct (membership_loop_inv _ _ _ _ L) as (_ & ls & -> & F2 & _).
  inversion F2 as [| ? l0 ? lrest H0 Hrest]; subst.
  inversion Hrest; subst.
  destruct (overlay_returns_same_shape l0 [] gamma_value (Forall_nil _))
    as (overlay & Eo & _).
  assert (E : processing [[[NaN; Fin 1]]] = Returns ([l0], overlay)).
  { unfold processing. rewrite L. cbn [bind app]. now rewrite Eo. }
  exists [l0], overlay. split; [exact E |].
  exact (proj2 (processing_layers_not_nan _ _ _ E)).
Defined.

(* ================================================================= *)
(** ** Further properties of the value extraction *)

(** What the loop adds to its accumulators: at most one read per point, at
    most one value per read. *)
Lemma extract_loop_lengths (raster : grid) (transform : Affine.t)
  (height width : Z) (nodata : option npfloat) (geometry : list (R * R)) :
  forall values reads vs rs,
    extract_loop raster transform height width nodata geometry values reads
    = Returns (vs, rs) ->
    exists dv dr,
      vs = values ++ dv /\ rs = reads ++ dr
      /\ (List.length dv <= List.length dr <= List.length geometry)%nat.
Proof.
  induction geometry as [| point rest IH]; intros values reads vs rs E.
  - simpl in E. injection E as <- <-. exists [], [].
    rewrite !app_nil_r. simpl. repeat split; lia.
  - simpl in E.
    destruct (Affine.invert transform) as [inv |]; simpl in E; [| discriminate].
    destruct (Affine.apply inv point) as [x y].
    destruct (_ && _)%bool in E.
    + destruct (raster_get raster (py_int y) (py_int x)) as [val |];
        simpl in E; [| discriminate].
      destruct (keep_value nodata val) as [[|] |]; simpl in E;
        [| | discriminate];
        apply IH in E; destruct E as (dv & dr & -> & -> & L).
      * exists (val :: dv), ((py_int y, py_int x) :: dr).
        rewrite <- !app_assoc. simpl. repeat split; lia.
      * exists dv, ((py_int y, py_int x) :: dr).
        rewrite <- !app_assoc. simpl. repeat split; lia.
    + apply IH in E. destruct E as (dv & dr & -> & -> & L).
      exists dv, dr. simpl. repeat split; lia.
Qed.

(** X9.  The extraction returns at most one value per point: the number of
    values is at most the number of cells read, which is at most the number
    of points. *)
Theorem extract_at_most_one_value_per_point
  (raster : grid) (transform : Affine.t) (height width : Z)
  (nodata : option npfloat) (gdf : list (R * R))
  (values : list npfloat) (reads : list (Z * Z)) :
  extract_trace raster transform height width nodata gdf
  = Returns (values, reads) ->
  (List.length values <= List.length reads <= List.length gdf)%nat.
Proof.
  intros E. apply extract_loop_lengths in E.
  destruct E as (dv & dr & -> & -> & L). exact L.
Qed.

Lemma extract_at_most_one_value_per_point_witness :
  (List.length [Fin 1; Fin 1] <= List.length [(0%Z, 0%Z); (0%Z, 0%Z)]
   <= List.length [(IZR 0, IZR 0); (IZR 0, IZR 0)])%nat.
Proof.
  exact (extract_at_most_one_value_per_point
           [[Fin 1]] identity_transform 1 1 (Some (Fin 0))
           [(IZR 0, IZR 0); (IZR 0, IZR 0)] _ _ extract_trace_example).
Defined.

(** X10.  The extraction of two point lists in a row is the extraction of
    the first followed by the extraction of the second, values and errors
    alike. *)
Theorem extract_values_app
  (raster : grid) (transform : Affine.t) (height width : Z)
  (nodata : option npfloat) (before after : list (R * R)) :
  extract_values raster transform height width nodata (before ++ after)
  = (v1 <- extract_values raster transform height width nodata before ;;
     v2 <- extract_values raster transform height width nodata after ;;
     Returns (v1 ++ v2)).
Proof.
  unfold extract_values, extract_trace.
  rewrite extract_loop_app.
  destruct (extract_loop raster transform height width nodata before [] [])
    as [[vb rb] |]; cbn [bind fst snd]; [| reflexivity].
  rewrite extract_loop_acc.
  destruct (extract_loop raster transform height width nodata after [] [])
    as [[va ra] |]; reflexivity.
Qed.

(** *** Invertible transforms *)


(** *** Without a sentinel *)





(** *** Where the values come from *)

(** X14.  Every value the extraction returns is the value of a valid cell
    of the raster, one that lies in [[0, H) x [0, W)]: the extraction
    returns nothing the background sampling could not draw. *)
Theorem extract_returns_values_of_valid_cells
  (raster : grid) (transform : Affine.t) (height width : Z)
  (nodata : option npfloat) (gdf : list (R * R))
  (values : list npfloat) :
  extract_values raster transform height width nodata gdf = Returns values ->
  Forall (fun v => exists r k,
              In (r, k) (valid_cells raster nodata)
              /\ cell_value raster (r, k) = v
              /\ in_bounds height width (Z.of_nat r, Z.of_nat k)) values.
Proof.
  unfold extract_values. intros E.
  destruct (extract_trace raster transform height width nodata gdf)
    as [[vs rs] |] eqn:T; [| discriminate].
  cbn [bind fst] in E. injection E as <-.
  refine (proj1 (extract_loop_invariant raster transform height width nodata
                   _ (fun _ => True) _ _ gdf [] [] vs rs T
                   (Forall_nil _) (Forall_nil _))); [| trivial].
  intros row col val B G K.
  pose proof B as [Br Bc]. simpl in Br, Bc.
  apply keep_value_true in K. destruct K as (nd & Hnd & K).
  apply raster_get_nonneg in G; [| lia | lia].
  destruct G as (cells & Hr & Hc).
  exists (Z.to_nat row), (Z.to_nat col). split; [| split].
  - apply in_valid_cells. now exists cells, val.
  - unfold cell_value. cbn [fst snd].
    rewrite (nth_error_nth _ _ _ Hr). now apply nth_error_nth.
  - rewrite !Z2Nat.id by lia. exact B.
Qed.

Lemma extract_returns_values_of_valid_cells_witness :
  Forall (fun v => exists r k,
              In (r, k) (valid_cells [[Fin 1]] (Some (Fin 0)))
              /\ cell_value [[Fin 1]] (r, k) = v
              /\ in_bounds 1 1 (Z.of_nat r, Z.of_nat k)) [Fin 1; Fin 1].
Proof.
  apply (extract_returns_values_of_valid_cells
           [[Fin 1]] identity_transform 1 1 (Some (Fin 0))
           [(IZR 0, IZR 0); (IZR 0, IZR 0)]).
  unfold extract_values. now rewrite extract_trace_example.
Defined.

(* ================================================================= *)
(** ** Further properties of the background sampling *)

Lemma NoDup_firstn {A : Type} (k : nat) (l : list A) :
  NoDup l -> NoDup (firstn k l).
Proof.
  intros H. rewrite <- (firstn_skipn k l) in H.
  now apply NoDup_app_remove_r in H.
Qed.

Lemma in_firstn {A : Type} (k : nat) (l : list A) (x : A) :
  In x (firstn k l) -> In x l.
Proof.
  intros H. rewrite <- (firstn_skipn k l). apply in_or_app. now left.
Qed.

Lemma NoDup_map_nth {A : Type} (l : list A) (d : A) (idx : list nat) :
  NoDup l -> NoDup idx ->
  Forall (fun i => (i < List.length l)%nat) idx ->
  NoDup (map (fun i => nth i l d) idx).
Proof.
  intros Hl Hidx Hr. induction Hidx as [| i idx Hi _ IH]; simpl.
  - constructor.
  - inversion Hr as [| ? ? Li Lr]; subst. constructor; [| now apply IH].
    intros In'. apply in_map_iff in In'. destruct In' as (j & E & Hj).
    rewrite Forall_forall in Lr.
    assert (j = i).
    { apply (proj1 (NoDup_nth l d) Hl); auto. }
    congruence.
Qed.

Lemma valid_cell_value (raster : grid) (nodata : option npfloat)
  (rc : nat * nat) :
  In rc (valid_cells raster nodata) ->
  is_nodata nodata (cell_value raster rc) = false
  /\ exists row v, nth_error raster (fst rc) = Some row
                   /\ nth_error row (snd rc) = Some v.
Proof.
  destruct rc as [r k]. intros H. apply in_valid_cells in H.
  destruct H as (cells & v & Hr & Hk & Hv). split.
  - unfold cell_value. cbn [fst snd].
    rewrite (nth_error_nth _ _ _ Hr), (nth_error_nth _ _ _ Hk). exact Hv.
  - now exists cells, v.
Qed.

(** The sampling block with a sentinel, a valid cell and a value
    extracted: it draws the cells at the first [sample_size] positions of
    the shuffle. *)
Lemma random_sampling_returns (permutation : nat -> list nat) (raster : grid)
  (nd : npfloat) (occurrence_values : list npfloat) :
  let cells := valid_cells raster (Some nd) in
  let size := Nat.min (List.length cells) (List.length occurrence_values) in
  (forall n, Permutation (permutation n) (seq 0 n)) ->
  (0 < size)%nat ->
  exists s,
    random_sampling permutation raster (Some nd) occurrence_values = Returns s
    /\ sample_cells s
       = map (fun i => nth i cells (0%nat, 0%nat))
           (firstn size (permutation (List.length cells)))
    /\ random_values s = map (cell_value raster) (sample_cells s).
Proof.
  intros cells size Hperm Hpos.
  set (n := List.length cells).
  set (idx := firstn size (permutation n)).
  set (sel := map (fun i => nth i cells (0%nat, 0%nat)) idx).
  assert (Hidx : Forall (fun i => (i < n)%nat) idx).
  { apply Forall_forall. intros i Hi. apply in_firstn in Hi.
    apply (Permutation_in _ (Hperm n)) in Hi. apply in_seq in Hi. lia. }
  assert (Hsel : Forall (fun rc => In rc cells) sel).
  { apply Forall_forall. intros rc Hrc. apply in_map_iff in Hrc.
    destruct Hrc as (i & <- & Hi). apply nth_In.
    rewrite Forall_forall in Hidx. now apply Hidx. }
  exists (mk_sampling (map fst sel) (map snd sel) (map (cell_value raster) sel)).
  unfold sample_cells. cbn [sample_rows sample_cols random_values].
  rewrite combine_fst_snd. split; [| split; reflexivity].
  unfold random_sampling. rewrite valid_mask_some. cbn [bind].
  unfold np_where. fold (valid_cells raster (Some nd)). fold cells.
  rewrite !length_map. fold n.
  change (Nat.min n (List.length occurrence_values)) with size.
  destruct (Nat.eqb_spec size 0) as [Z0 | _]; [lia |].
  unfold np_random_choice.
  assert (Hle : (size <=? n)%nat = true).
  { apply Nat.leb_le. unfold size. fold n. lia. }
  rewrite Hle. cbn [bind]. fold idx.
  rewrite (take_in_range (map fst cells) (fst (0%nat, 0%nat)))
    by now rewrite length_map.
  cbn [bind].
  rewrite (take_in_range (map snd cells) (snd (0%nat, 0%nat)))
    by now rewrite length_map.
  cbn [bind].
  replace (map (fun i => nth i (map fst cells) (fst (0%nat, 0%nat))) idx)
    with (map fst sel)
    by (unfold sel; rewrite map_map; apply map_ext; intros i;
        now rewrite map_nth).
  replace (map (fun i => nth i (map snd cells) (snd (0%nat, 0%nat))) idx)
    with (map snd sel)
    by (unfold sel; rewrite map_map; apply map_ext; intros i;
        now rewrite map_nth).
  rewrite take2_cells; [reflexivity |].
  eapply Forall_impl; [| exact Hsel].
  intros rc Hrc. now apply (valid_cell_value raster (Some nd)).
Qed.

(** X15.  With a sentinel, at least one valid cell and at least one
    extracted value, the sampling block returns
    [min(number of valid cells, number of extracted values)] values, read
    at pairwise distinct valid cells; none of them is the sentinel. *)
Theorem background_sample_is_distinct_and_valid
  (permutation : nat -> list nat) (raster : grid) (nd : npfloat)
  (occurrence_values : list npfloat) :
  (forall n, Permutation (permutation n) (seq 0 n)) ->
  valid_cells raster (Some nd) <> [] ->
  occurrence_values <> [] ->
  exists s,
    random_sampling permutation raster (Some nd) occurrence_values = Returns s
    /\ List.length (random_values s)
       = Nat.min (List.length (valid_cells raster (Some nd)))
           (List.length occurrence_values)
    /\ NoDup (sample_cells s)
    /\ incl (sample_cells s) (valid_cells raster (Some nd))
    /\ random_values s = map (cell_value raster) (sample_cells s)
    /\ Forall (fun v => is_nodata (Some nd) v = false) (random_values s).
Proof.
  intros Hperm Hv Ho.
  set (cells := valid_cells raster (Some nd)) in *.
  set (size := Nat.min (List.length cells) (List.length occurrence_values)).
  assert (Hpos : (0 < size)%nat).
  { unfold size. destruct cells; [contradiction |].
    destruct occurrence_values; [contradiction |]. simpl. lia. }
  destruct (random_sampling_returns permutation raster nd occurrence_values
              Hperm Hpos) as (s & Es & Ec & Ev).
  fold cells in Ec. fold size in Ec.
  set (n := List.length cells) in *.
  assert (Hlen : List.length (permutation n) = n).
  { rewrite (Permutation_length (Hperm n)). apply length_seq. }
  assert (Hidx : Forall (fun i => (i < n)%nat) (firstn size (permutation n))).
  { apply Forall_forall. intros i Hi. apply in_firstn in Hi.
    apply (Permutation_in _ (Hperm n)) in Hi. apply in_seq in Hi. lia. }
  assert (Hincl : incl (sample_cells s) cells).
  { rewrite Ec. intros rc Hrc. apply in_map_iff in Hrc.
    destruct Hrc as (i & <- & Hi). apply nth_In.
    rewrite Forall_forall in Hidx. now apply Hidx. }
  exists s. split; [exact Es |]. split; [| split; [| split; [| split]]].
  - rewrite Ev, Ec, !length_map, length_firstn, Hlen. unfold size. fold n. lia.
  - rewrite Ec. apply NoDup_map_nth.
    + apply NoDup_valid_cells.
    + apply NoDup_firstn.
      apply (Permutation_NoDup (Permutation_sym (Hperm n))), seq_NoDup.
    + exact Hidx.
  - exact Hincl.
  - exact Ev.
  - rewrite Ev. apply Forall_map, Forall_forall. intros rc Hrc.
    apply (valid_cell_value raster (Some nd)). now apply Hincl.
Qed.

Lemma background_sample_is_distinct_and_valid_witness :
  exists s,
    random_sampling identity_shuffle [[Fin 1]] (Some (Fin 0)) [Fin 1; Fin 1]
    = Returns s
    /\ NoDup (sample_cells s).
Proof.
  destruct (background_sample_is_distinct_and_valid
              identity_shuffle [[Fin 1]] (Fin 0) [Fin 1; Fin 1]
              (fun n => Permutation_refl (seq 0 n)))
    as (s & Es & _ & Nd & _).
  - rewrite valid_cells_example. discriminate.
  - discriminate.
  - exists s. now split.
Defined.

Lemma random_sampling_nothing_extracted (permutation : nat -> list nat)
  (raster : grid) (nd : npfloat) :
  random_sampling permutation raster (Some nd) []
  = Raises (ValueError "No valid pixels for random sampling").
Proof.
  unfold random_sampling. rewrite valid_mask_some. cbn [bind].
  unfold np_where. cbn [List.length]. now rewrite Nat.min_0_r.
Qed.

(** X16.  The guard of the sampling block.  With a sentinel, the block
    raises "No valid pixels for random sampling" exactly when the raster has
    no valid cell or when no value was extracted -- in the second case
    whatever the raster holds. *)
Theorem sampling_guard (permutation : nat -> list nat) (raster : grid)
  (nd : npfloat) (occurrence_values : list npfloat) :
  (forall n, Permutation (permutation n) (seq 0 n)) ->
  (random_sampling permutation raster (Some nd) occurrence_values
   = Raises (ValueError "No valid pixels for random sampling")
   <-> valid_cells raster (Some nd) = [] \/ occurrence_values = []).
Proof.
  intros Hperm. split.
  - intros E.
    destruct (valid_cells raster (Some nd)) as [| cell cells] eqn:Hc;
      [now left |].
    destruct occurrence_values as [| v occ]; [now right |].
    exfalso.
    destruct (random_sampling_returns permutation raster nd (v :: occ) Hperm)
      as (s & Es & _).
    + rewrite Hc. simpl. lia.
    + rewrite Es in E. discriminate E.
  - intros [H | ->].
    + now apply random_sampling_no_valid_cell.
    + apply random_sampling_nothing_extracted.
Qed.

Lemma sampling_guard_witness :
  random_sampling identity_shuffle [[Fin 1]] (Some (Fin 0)) []
  = Raises (ValueError "No valid pixels for random sampling").
Proof.
  apply (proj2 (sampling_guard identity_shuffle [[Fin 1]] (Fin 0) []
                  (fun n => Permutation_refl (seq 0 n)))).
  now right.
Defined.

(** X17.  Whenever the sampling block returns, both samples are non-empty
    and the background sample is no longer than the foreground sample, so
    the label vector [y_true] the script builds holds both classes and is as
    long as [y_score]. *)
Theorem sampling_feeds_two_classes (permutation : nat -> list nat)
  (raster : grid) (nodata : option npfloat)
  (occurrence_values : list npfloat) (s : sampling) :
  (forall n, Permutation (permutation n) (seq 0 n)) ->
  random_sampling permutation raster nodata occurrence_values = Returns s ->
  let y_true := np_ones_like occurrence_values
                ++ np_zeros_like (random_values s) in
  let y_score := occurrence_values ++ random_values s in
  occurrence_values <> []
  /\ random_values s <> []
  /\ (List.length (random_values s) <= List.length occurrence_values)%nat
  /\ In (Fin 1) y_true /\ In (Fin 0) y_true
  /\ List.length y_true = List.length y_score.
Proof.
  intros Hperm E y_true y_score.
  destruct nodata as [nd |]; [| discriminate E].
  destruct (valid_cells raster (Some nd)) as [| cell cells] eqn:Hc.
  { rewrite random_sampling_no_valid_cell in E by assumption. discriminate. }
  destruct occurrence_values as [| v occ].
  { rewrite random_sampling_nothing_extracted in E. discriminate. }
  destruct (random_sampling_returns permutation raster nd (v :: occ) Hperm)
    as (s' & Es & Ec & Ev).
  { rewrite Hc. simpl. lia. }
  rewrite Es in E. injection E as ->.
  assert (Hlen : List.length (random_values s)
                 = Nat.min (List.length (valid_cells raster (Some nd)))
                     (List.length (v :: occ))).
  { rewrite Ev, Ec, !length_map, length_firstn.
    rewrite (Permutation_length (Hperm _)), length_seq. lia. }
  rewrite Hc in Hlen. cbn [List.length] in Hlen.
  assert (Hne : random_values s <> []).
  { intros N. rewrite N in Hlen. simpl in Hlen. lia. }
  split; [discriminate |]. split; [exact Hne |].
  split; [cbn [List.length]; lia |].
  subst y_true y_score. unfold np_ones_like, np_zeros_like.
  split; [now left |]. split.
  - apply in_or_app. right.
    destruct (random_values s) as [| w ws]; [contradiction | now left].
  - now rewrite !length_app, !length_map.
Qed.

Lemma sampling_feeds_two_classes_witness :
  exists s,
    random_sampling identity_shuffle [[Fin 1]] (Some (Fin 0)) [Fin 1; Fin 1]
    = Returns s
    /\ random_values s <> [].
Proof.
  destruct (random_sampling_returns identity_shuffle [[Fin 1]] (Fin 0)
              [Fin 1; Fin 1] (fun n => Permutation_refl (seq 0 n)))
    as (s & Es & _).
  { rewrite valid_cells_example. simpl. lia. }
  exists s. split; [exact Es |].
  exact (proj1 (proj2 (sampling_feeds_two_classes
                         identity_shuffle [[Fin 1]] (Some (Fin 0))
                         [Fin 1; Fin 1] s
                         (fun n => Permutation_refl (seq 0 n)) Es))).
Defined.

(* ================================================================= *)
(** ** Nodata cells in the processing loop *)

(** X18.  The loop replaces a NaN (nodata) cell by 0 before the membership
    is computed.  With each of the script's three centre/spread pairs such
    a cell gets a membership above 1, at least as large as that of every
    cell holding a non-negative value. *)
Theorem nodata_cells_get_top_membership (i : nat) (c sigma : npfloat) :
  list_get centers i = Returns c ->
  list_get sigmas i = Returns sigma ->
  exists m,
    gaussian_membership (np_nan_to_num [[NaN]]) c sigma = Returns [[Fin m]]
    /\ 1 < m
    /\ forall v, 0 <= v ->
         exists m',
           gaussian_membership (np_nan_to_num [[Fin v]]) c sigma
           = Returns [[Fin m']]
           /\ m' <= m.
Proof.
  intros Ec Es.
  assert (S : exists c' s', c = Fin c' /\ sigma = Fin s' /\ 0 < c' /\ 0 < s').
  { destruct i as [| [| [| i]]]; unfold list_get, centers, sigmas in *;
      simpl in Ec, Es.
    - injection Ec as <-. injection Es as <-.
      exists 50, 15. repeat split; lra.
    - injection Ec as <-. injection Es as <-.
      exists (3 / 10), (1 / 10). repeat split; lra.
    - injection Ec as <-. injection Es as <-.
      exists 300, 60. repeat split; lra.
    - destruct i; discriminate Ec. }
  destruct S as (c' & s' & -> & -> & Hc & Hs).
  exists (exp (- (0 - c') / (2 * s'))).
  unfold gaussian_membership, np_nan_to_num, grid_map. cbn [map].
  rewrite membership_value_linear by lra.
  split; [reflexivity |]. split.
  - apply exp_gt_1. unfold Rdiv.
    apply Rmult_lt_0_compat; [lra | apply Rinv_0_lt_compat; lra].
  - intros v Hv. exists (exp (- (v - c') / (2 * s'))).
    rewrite membership_value_linear by lra.
    split; [reflexivity |]. apply exp_le. unfold Rdiv.
    apply Rmult_le_compat_r; [left; apply Rinv_0_lt_compat |]; lra.
Qed.

Lemma nodata_cells_get_top_membership_witness :
  exists m,
    gaussian_membership (np_nan_to_num [[NaN]]) (Fin 50) (Fin 15)
    = Returns [[Fin m]]
    /\ 1 < m.
Proof.
  destruct (nodata_cells_get_top_membership 0 (Fin 50) (Fin 15)
              eq_refl eq_refl) as (m & E & H & _).
  exists m. now split.
Defined.
